(** * WeatherDisplay: a shallow embedding of [src/components/WeatherDisplay.tsx]

    The component fetches the weather block of the JinriShici [info]
    endpoint, keeps the last successful payload in React state and renders
    one of three pills.  The development below follows the source top to
    bottom: JavaScript strings and the few [String.prototype] methods the
    component calls, the payload interface, the three pure helpers
    ([getWeatherIcon], [getCurrentWeather], [getCityInfo]), the render
    function, [fetchWeather] with its [try]/[catch]/[finally], and the
    effect that owns the ten-minute interval. *)

From Stdlib Require Import NArith ZArith String Ascii Bool Lia DecimalString.
From stdpp Require Import base option list gmap.

Set Default Proof Using "Type".
Set Warnings "-register-all".
Open Scope N_scope.

(** ** JavaScript strings

    A JavaScript string is a sequence of 16-bit code units.  [includes],
    [join] and a global [replace] with a character class all work on code
    units, so that is the representation kept here. *)

Definition jsstring : Type := list N.

Module Utf8.
(** String literals of this file are written as in the source and turned
    into code units by decoding their UTF-8 bytes. *)

Fixpoint bytes (s : string) : list N :=
  match s with
  | EmptyString => []
  | String a r => N_of_ascii a :: bytes r
  end.

Definition cont (b : N) : N := N.land b 0x3F.

Fixpoint code_points (bs : list N) : list N :=
  match bs with
  | [] => []
  | b0 :: r0 =>
    if b0 <? 0x80 then b0 :: code_points r0
    else
      match r0 with
      | [] => [0xFFFD]
      | b1 :: r1 =>
        if b0 <? 0xE0
        then N.lor (N.shiftl (N.land b0 0x1F) 6) (cont b1) :: code_points r1
        else
          match r1 with
          | [] => [0xFFFD]
          | b2 :: r2 =>
            if b0 <? 0xF0
            then N.lor (N.shiftl (N.land b0 0x0F) 12)
                       (N.lor (N.shiftl (cont b1) 6) (cont b2))
                 :: code_points r2
            else
              match r2 with
              | [] => [0xFFFD]
              | b3 :: r3 =>
                N.lor (N.shiftl (N.land b0 0x07) 18)
                      (N.lor (N.shiftl (cont b1) 12)
                             (N.lor (N.shiftl (cont b2) 6) (cont b3)))
                :: code_points r3
              end
          end
      end
  end.

(** A code point above the basic plane becomes a surrogate pair. *)
Definition code_units (cp : N) : list N :=
  if cp <? 0x10000 then [cp]
  else
    let c := cp - 0x10000 in
    [0xD800 + N.shiftr c 10; 0xDC00 + N.land c 0x3FF].

Definition utf16 (s : string) : jsstring :=
  flat_map code_units (code_points (bytes s)).
End Utf8.

Abbreviation utf16 := Utf8.utf16.

(** [a === b] on strings. *)
Definition str_eqb (a b : jsstring) : bool := bool_decide (a = b).

(** [s.startsWith(k)], the helper of [includes]. *)
Fixpoint startsWith (s k : jsstring) {struct k} : bool :=
  match k, s with
  | [], _ => true
  | _ :: _, [] => false
  | a :: k', b :: s' => (a =? b) && startsWith s' k'
  end.

(** [s.includes(k)]: [k] occurs in [s] as a contiguous run of code units. *)
Fixpoint includes (s k : jsstring) : bool :=
  startsWith s k ||
  match s with
  | [] => false
  | _ :: s' => includes s' k
  end.

(** [parts.join(sep)]. *)
Fixpoint join (sep : jsstring) (parts : list jsstring) : jsstring :=
  match parts with
  | [] => []
  | [p] => p
  | p :: ps => p ++ sep ++ join sep ps
  end.

(** [s.replace(/[cls]/g, rep)] for a class [cls] of single code units and a
    replacement [rep] without [$] patterns: every code unit of the class is
    replaced, the others are kept. *)
Definition replace_class (cls rep s : jsstring) : jsstring :=
  flat_map (fun c => if bool_decide (c ∈ cls) then rep else [c]) s.

(** Truthiness of a [string | undefined] value: the empty string and
    [undefined] are falsy. *)
Definition truthy (o : option jsstring) : bool :=
  match o with
  | Some (_ :: _) => true
  | _ => false
  end.

(** [a || d] on strings: the empty string is falsy. *)
Definition or_else (a d : jsstring) : jsstring :=
  match a with
  | [] => d
  | _ :: _ => a
  end.

(** ** What the host provides

    Numbers are IEEE doubles and lower-casing follows the Unicode tables of
    the engine; the component only stores numbers, prints them and
    lower-cases one string, so both are taken from the host. *)

Class Runtime := {
  number : Type;
  Number_toString : number -> jsstring;
  toLowerCase : jsstring -> jsstring
}.

(** ** The payload: [interface JinriShiciData] *)

Section Widget.
Context `{RT : Runtime}.

Record WeatherInfo := {
  wi_temperature : option number;
  wi_humidity : option number;
  wi_weather : option jsstring;
  wi_wind : option jsstring;
  wi_airQuality : option jsstring;
  wi_region : option jsstring
}.

Record PayloadData := {
  d_weatherData : option WeatherInfo;
  d_tags : option (list jsstring);
  d_poetryTokens : option (list jsstring);
  d_inspirationTokens : option (list jsstring);
  d_region : option jsstring;
  d_location : option jsstring;
  d_city : option jsstring;
  d_province : option jsstring
}.

(** The interface declares [data] as required, but both [getCurrentWeather]
    and [getCityInfo] test [!weatherData.data] first; a body without [data]
    is therefore a value the component handles, and it is kept optional. *)
Record JinriShiciData := {
  status : jsstring;
  message : jsstring;
  data : option PayloadData
}.

(** The object literal [{}] of [weatherData.data.weatherData || {}]. *)
Definition emptyWeatherInfo : WeatherInfo :=
  {| wi_temperature := None; wi_humidity := None; wi_weather := None;
     wi_wind := None; wi_airQuality := None; wi_region := None |}.

(** ** The element tree *)

Inductive LucideIcon := Sun | Cloud | CloudRain | CloudSnow | Wind.

Inductive Tag := div | span.

Inductive Node :=
| Icon (icon : LucideIcon) (className : string)
| Text (s : jsstring)
| Value (n : number)
| Elem (tag : Tag) (className : string) (children : list Node).

(** ** [getWeatherIcon] (lines 40-56) *)

Definition getWeatherIcon (weather : jsstring) : Node :=
  let weatherLower := toLowerCase weather in
  if includes weatherLower (utf16 "晴") || includes weatherLower (utf16 "sunny")
  then Icon Sun "w-4 h-4 text-yellow-500"
  else if includes weatherLower (utf16 "云") || includes weatherLower (utf16 "cloud")
  then Icon Cloud "w-4 h-4 text-gray-500"
  else if includes weatherLower (utf16 "雨") || includes weatherLower (utf16 "rain")
  then Icon CloudRain "w-4 h-4 text-blue-500"
  else if includes weatherLower (utf16 "雪") || includes weatherLower (utf16 "snow")
  then Icon CloudSnow "w-4 h-4 text-blue-300"
  else if includes weatherLower (utf16 "风") || includes weatherLower (utf16 "wind")
  then Icon Wind "w-4 h-4 text-gray-600"
  else Icon Sun "w-4 h-4 text-yellow-500".

(** ** [getCurrentWeather] (lines 124-136)

    The result object mixes numbers and placeholder strings. *)

Inductive NumOrStr := Num (n : number) | Str (s : jsstring).

Record CurrentWeather := {
  temperature : NumOrStr;
  weather : jsstring;
  humidity : NumOrStr;
  airQuality : jsstring
}.

(** [x ?? d]: only [null] and [undefined] take the right operand. *)
Definition nullish {A B} (inj : A -> B) (o : option A) (d : B) : B :=
  match o with
  | Some v => inj v
  | None => d
  end.

Definition getCurrentWeather (weatherData : option JinriShiciData) : CurrentWeather :=
  match weatherData ≫= data with
  | None =>
    {| temperature := Str (utf16 "--"); weather := utf16 "未知";
       humidity := Str (utf16 "--"); airQuality := utf16 "--" |}
  | Some d =>
    let weatherInfo := default emptyWeatherInfo (d_weatherData d) in
    {| temperature := nullish Num (wi_temperature weatherInfo) (Str (utf16 "--"));
       weather := nullish id (wi_weather weatherInfo) (utf16 "未知");
       humidity := nullish Num (wi_humidity weatherInfo) (Str (utf16 "--"));
       airQuality := nullish id (wi_airQuality weatherInfo) (utf16 "--") |}
  end.

(** ** [getCityInfo] (lines 141-175) *)

(** [[data.province, data.city].filter(Boolean)] *)
Definition filter_Boolean (parts : list (option jsstring)) : list jsstring :=
  omap (fun o => if truthy o then o else None) parts.

Definition getCityInfo (weatherData : option JinriShiciData) : jsstring :=
  match weatherData ≫= data with
  | None => utf16 "未知城市"
  | Some d =>
    let locationInfo : option jsstring :=
      if truthy (d_weatherData d ≫= wi_region) then d_weatherData d ≫= wi_region
      else if truthy (d_region d) then d_region d
      else if truthy (d_location d) then d_location d
      else if truthy (d_city d) || truthy (d_province d)
      then Some (join (utf16 "·") (filter_Boolean [d_province d; d_city d]))
      else None
    in
    if truthy locationInfo
    then replace_class (utf16 "|｜") (utf16 "·") (default [] locationInfo)
    else utf16 "未知位置"
  end.

(** ** Component state (lines 34-37) *)

Record State := {
  weatherData : option JinriShiciData;
  loading : bool;
  error : option jsstring;
  isHovering : bool
}.

Definition initialState : State :=
  {| weatherData := None; loading := false; error := None; isHovering := false |}.

(** ** Rendering (lines 100-205) *)

(** Modelled from the spec: the type [WeatherConfig] of [../types] is not
    part of the sources; the spec gives the configuration as
    [{ enabled: boolean }] and the component reads no other field. *)
Record WeatherConfig := { enabled : bool }.

(** [!config || !config.enabled] *)
Definition disabled (config : option WeatherConfig) : bool :=
  match config with
  | None => true
  | Some c => negb (enabled c)
  end.

Definition loadingPill : Node :=
  Elem div "hidden xl:flex items-center gap-2 px-3 py-2 bg-slate-50 dark:bg-slate-700/30 rounded-full text-xs text-slate-500 dark:text-slate-400 h-[36px] min-w-[40px] leading-none"
    [ Icon Cloud "w-4 h-4 animate-pulse";
      Elem span "hidden 2xl:inline" [Text (utf16 "加载天气中...")] ].

Definition errorPill : Node :=
  Elem div "hidden xl:flex items-center gap-2 px-3 py-2 bg-slate-50 dark:bg-slate-700/30 rounded-full text-xs text-slate-500 dark:text-slate-400 h-[36px] min-w-[40px] leading-none"
    [ Icon Cloud "w-4 h-4";
      Elem span "hidden 2xl:inline" [Text (utf16 "天气不可用")] ].

(** A [{value}] child: a number or a string. *)
Definition child (v : NumOrStr) : Node :=
  match v with
  | Num n => Value n
  | Str s => Text s
  end.

Definition tooltip (s : State) : Node :=
  Elem div "absolute top-full left-1/2 transform -translate-x-1/2 mt-2 px-2 py-1 bg-slate-800 dark:bg-slate-600 text-white text-xs rounded whitespace-nowrap z-50"
    [ Elem div "relative"
        [ Text (getCityInfo (weatherData s));
          Elem div "absolute -top-1 left-1/2 transform -translate-x-1/2"
            [ Elem div "border-4 border-transparent border-b-slate-800 dark:border-b-slate-600" [] ] ] ].

Definition successPill (s : State) : Node :=
  let currentWeather := getCurrentWeather (weatherData s) in
  Elem div "hidden xl:flex items-center gap-2 px-3 py-2 bg-slate-50 dark:bg-slate-700/30 rounded-full text-xs relative h-[36px] min-w-[40px] leading-none group"
    ([ getWeatherIcon (weather currentWeather);
       Elem span "font-medium text-slate-700 dark:text-slate-300"
         [ child (temperature currentWeather); Text (utf16 "°C") ];
       Elem span "text-slate-500 dark:text-slate-400 hidden 2xl:inline"
         [ Text (weather currentWeather) ] ]
     ++ (if isHovering s then [tooltip s] else [])).

(** The component body after the hooks; [None] is [return null]. *)
Definition render (config : option WeatherConfig) (s : State) : option Node :=
  if disabled config then None
  else if loading s then Some loadingPill
  else if truthy (error s) || negb (bool_decide (is_Some (weatherData s)))
  then Some errorPill
  else Some (successPill s).

(** The text a node shows; numbers are printed by the host. *)
Fixpoint textContent (n : Node) : jsstring :=
  match n with
  | Icon _ _ => []
  | Text s => s
  | Value v => Number_toString v
  | Elem _ _ children => flat_map textContent children
  end.

(** ** Effects: state updates, the console and exceptions

    [fetchWeather] updates the component state, writes to the console and
    contains a [try]/[catch]/[finally]; its body is written in a state
    monad with exceptions over the following cell. *)

Inductive Exn :=
| NetworkFailure            (* [fetch] rejects *)
| ApiError (status : N)     (* [new Error(`JinriShici API error: ${response.status}`)] *)
| BodyError.                (* [response.json()] rejects *)

Record Cell := {
  ui : State;
  console : list Exn        (* arguments of [console.error], latest first *)
}.

Definition M (A : Type) : Type := Cell -> Cell * (Exn + A).

#[export] Instance M_ret : MRet M := fun A a c => (c, inr a).

#[export] Instance M_bind : MBind M := fun A B k m c =>
  match m c with
  | (c', inl e) => (c', inl e)
  | (c', inr a) => k a c'
  end.

Definition throw {A} (e : Exn) : M A := fun c => (c, inl e).

(** [try { body } catch (err) { handler } finally { fin }]: the handler
    sees what the body threw, the finaliser always runs, and an exception of
    the finaliser replaces the pending completion. *)
Definition try_catch_finally {A} (body : M A) (handler : Exn -> M A) (fin : M unit) : M A :=
  fun c =>
    let '(c1, r1) := body c in
    let '(c2, r2) :=
      match r1 with
      | inl e => handler e c1
      | inr a => (c1, inr a)
      end in
    match fin c2 with
    | (c3, inl e) => (c3, inl e)
    | (c3, inr _) => (c3, r2)
    end.

Definition setState (f : State -> State) : M unit :=
  fun c => ({| ui := f (ui c); console := console c |}, inr tt).

Definition setWeatherData (v : option JinriShiciData) : M unit :=
  setState (fun s => {| weatherData := v; loading := loading s;
                        error := error s; isHovering := isHovering s |}).

Definition setLoading (v : bool) : M unit :=
  setState (fun s => {| weatherData := weatherData s; loading := v;
                        error := error s; isHovering := isHovering s |}).

Definition setError (v : option jsstring) : M unit :=
  setState (fun s => {| weatherData := weatherData s; loading := loading s;
                        error := v; isHovering := isHovering s |}).

Definition setIsHovering (v : bool) : M unit :=
  setState (fun s => {| weatherData := weatherData s; loading := loading s;
                        error := error s; isHovering := v |}).

Definition console_error (e : Exn) : M unit :=
  fun c => ({| ui := ui c; console := e :: console c |}, inr tt).

(** ** The network

    What the two awaited promises of [fetchWeather] settle to. *)

Record Response := {
  http_status : N;
  body : option JinriShiciData      (* [None]: [response.json()] rejects *)
}.

(** [response.ok]: the status is in the range 200-299. *)
Definition ok (r : Response) : bool :=
  (200 <=? http_status r) && (http_status r <=? 299).

Inductive FetchOutcome :=
| Rejected
| Fulfilled (response : Response).

Definition await_fetch (net : FetchOutcome) : M Response :=
  match net with
  | Rejected => throw NetworkFailure
  | Fulfilled response => mret response
  end.

Definition await_json (response : Response) : M JinriShiciData :=
  match body response with
  | None => throw BodyError
  | Some d => mret d
  end.

(** ** [fetchWeather] (lines 64-90)

    The function runs up to its first [await] when it is called and resumes
    when the network answers; no state is touched between the two awaits, so
    the two halves are the atomic steps of the event loop. *)

Definition fetchWeather_start : M unit :=
  setLoading true ;;
  setError None.

Definition fetchWeather_settle (net : FetchOutcome) : M unit :=
  try_catch_finally
    (response ← await_fetch net;
     if negb (ok response) then throw (ApiError (http_status response))
     else
       data ← await_json response;
       if str_eqb (status data) (utf16 "success")
       then setWeatherData (Some data)
       else setError (Some (or_else (message data) (utf16 "获取天气数据失败"))))
    (fun err =>
       console_error err ;;
       setError (Some (utf16 "天气数据获取失败")))
    (setLoading false).

Definition fetchWeather (net : FetchOutcome) : M unit :=
  fetchWeather_start ;;
  fetchWeather_settle net.

(** ** The effect and the page around the component (lines 59-98)

    The effect calls [fetchWeather], registers the interval and returns the
    function that clears it.  React runs the effect after mounting and
    whenever [config] changes, and runs the returned function before the
    next run of the effect and on unmounting.  The timers of the page are a
    map from handles to periods: [setInterval] adds a fresh handle,
    [clearInterval] deletes it, and only a handle of the map can fire. *)

Record World := {
  props : option (option WeatherConfig);  (* [None]: not mounted; else the [config] prop *)
  cell : Cell;
  timers : gmap nat N;                    (* handle to period in milliseconds *)
  next_handle : nat;                      (* the handle the next [setInterval] returns *)
  cleanup : option nat;                   (* [interval] of the pending [clearInterval(interval)] *)
  requests : nat;                         (* calls of [fetch] so far *)
  in_flight : nat;                        (* unsettled fetches of the mounted instance *)
  orphaned : nat                          (* unsettled fetches of instances already unmounted *)
}.

Definition initialWorld : World :=
  {| props := None; cell := {| ui := initialState; console := [] |};
     timers := ∅; next_handle := 0%nat; cleanup := None;
     requests := 0%nat; in_flight := 0%nat; orphaned := 0%nat |}.

Definition mounted (w : World) : bool :=
  match props w with
  | Some _ => true
  | None => false
  end.

(** A call of [fetchWeather], from the effect or from the interval: the
    request goes out, and the setters before the first [await] run (they do
    nothing on an instance that is gone). *)
Definition call_fetchWeather (w : World) : World :=
  {| props := props w;
     cell := if mounted w then (fetchWeather_start (cell w)).1 else cell w;
     timers := timers w; next_handle := next_handle w; cleanup := cleanup w;
     requests := S (requests w);
     in_flight := if mounted w then S (in_flight w) else in_flight w;
     orphaned := if mounted w then orphaned w else S (orphaned w) |}.

(** The effect body. *)
Definition run_effect (config : option WeatherConfig) (w : World) : World :=
  if disabled config then
    {| props := props w; cell := cell w; timers := timers w;
       next_handle := next_handle w; cleanup := None;
       requests := requests w; in_flight := in_flight w; orphaned := orphaned w |}
  else
    let w1 := call_fetchWeather w in
    let interval := next_handle w1 in
    {| props := props w1; cell := cell w1;
       timers := <[interval := 10 * 60 * 1000]> (timers w1);
       next_handle := S interval;
       cleanup := Some interval;
       requests := requests w1; in_flight := in_flight w1; orphaned := orphaned w1 |}.

(** The function the effect returned, if any. *)
Definition run_cleanup (w : World) : World :=
  match cleanup w with
  | None => w
  | Some interval =>
    {| props := props w; cell := cell w;
       timers := delete interval (timers w);
       next_handle := next_handle w; cleanup := None;
       requests := requests w; in_flight := in_flight w; orphaned := orphaned w |}
  end.

Definition with_props (p : option (option WeatherConfig)) (w : World) : World :=
  {| props := p; cell := cell w; timers := timers w; next_handle := next_handle w;
     cleanup := cleanup w; requests := requests w; in_flight := in_flight w;
     orphaned := orphaned w |}.

Definition with_cell (c : Cell) (w : World) : World :=
  {| props := props w; cell := c; timers := timers w; next_handle := next_handle w;
     cleanup := cleanup w; requests := requests w; in_flight := in_flight w;
     orphaned := orphaned w |}.

(** The component got past its three early returns (lines 101-121), so
    the element it returns is the success pill, the only one that carries
    [onMouseEnter] and [onMouseLeave]. *)
Definition shows_success (w : World) : bool :=
  match props w with
  | Some config =>
    negb (disabled config)
    && negb (loading (ui (cell w)))
    && negb (truthy (error (ui (cell w)))
             || negb (bool_decide (is_Some (weatherData (ui (cell w))))))
  | None => false
  end.

Inductive Event :=
| Mount (config : option WeatherConfig)
| SetConfig (config : option WeatherConfig)   (* the parent passes another [config] *)
| Unmount
| Tick (handle : nat)                         (* the runtime fires an interval *)
| Settle (net : FetchOutcome)                 (* a fetch of the mounted instance settles *)
| SettleOrphan (net : FetchOutcome)           (* a fetch of an unmounted instance settles *)
| MouseEnter
| MouseLeave.

(** One turn of the event loop.  An event that cannot happen in [w] (a tick
    of a cleared handle, a settlement with nothing in flight, a second
    mount, a pointer event while the success pill, which alone carries the
    pointer handlers, is not shown) leaves [w] as it is. *)
Definition step (w : World) (e : Event) : World :=
  match e with
  | Mount config =>
    if mounted w then w
    else run_effect config
           (with_props (Some config)
              (with_cell {| ui := initialState; console := console (cell w) |} w))
  | SetConfig config =>
    if mounted w then run_effect config (run_cleanup (with_props (Some config) w))
    else w
  | Unmount =>
    if mounted w then
      let w1 := run_cleanup w in
      {| props := None; cell := cell w1; timers := timers w1;
         next_handle := next_handle w1; cleanup := cleanup w1;
         requests := requests w1; in_flight := 0%nat;
         orphaned := (orphaned w1 + in_flight w1)%nat |}
    else w
  | Tick handle =>
    match timers w !! handle with
    | Some _ => call_fetchWeather w
    | None => w
    end
  | Settle net =>
    match mounted w, in_flight w with
    | true, S n =>
      {| props := props w; cell := (fetchWeather_settle net (cell w)).1;
         timers := timers w; next_handle := next_handle w; cleanup := cleanup w;
         requests := requests w; in_flight := n; orphaned := orphaned w |}
    | _, _ => w
    end
  | SettleOrphan net =>
    match orphaned w with
    | S n =>
      {| props := props w;
         cell := {| ui := ui (cell w);
                    console := console (fetchWeather_settle net (cell w)).1 |};
         timers := timers w; next_handle := next_handle w; cleanup := cleanup w;
         requests := requests w; in_flight := in_flight w; orphaned := n |}
    | O => w
    end
  | MouseEnter =>
    if shows_success w then with_cell (setIsHovering true (cell w)).1 w else w
  | MouseLeave =>
    if shows_success w then with_cell (setIsHovering false (cell w)).1 w else w
  end.

Definition run (w : World) (events : list Event) : World := foldl step w events.

(** What the page shows of the component. *)
Definition view (w : World) : option Node :=
  match props w with
  | Some config => render config (ui (cell w))
  | None => None
  end.

(** The worlds the page can be in. *)
Definition reachable (w : World) : Prop := exists events, w = run initialWorld events.

(** ** The behaviour the specification words describe

    The definitions of this part restate, in the words of the
    specification, what the code above is compared with. *)

(** The five icon categories, in the order they are tested. *)
Inductive Category := Clear | Cloudy | Rain | Snow | Windy.

Definition priority : list Category := [Clear; Cloudy; Rain; Snow; Windy].

Definition keywords (c : Category) : list jsstring :=
  match c with
  | Clear => [utf16 "晴"; utf16 "sunny"]
  | Cloudy => [utf16 "云"; utf16 "cloud"]
  | Rain => [utf16 "雨"; utf16 "rain"]
  | Snow => [utf16 "雪"; utf16 "snow"]
  | Windy => [utf16 "风"; utf16 "wind"]
  end.

Definition iconOf (c : Category) : Node :=
  match c with
  | Clear => Icon Sun "w-4 h-4 text-yellow-500"
  | Cloudy => Icon Cloud "w-4 h-4 text-gray-500"
  | Rain => Icon CloudRain "w-4 h-4 text-blue-500"
  | Snow => Icon CloudSnow "w-4 h-4 text-blue-300"
  | Windy => Icon Wind "w-4 h-4 text-gray-600"
  end.

(** A lower-cased description matches a category when one of the
    category's keywords occurs in it. *)
Definition matches (lower : jsstring) (c : Category) : bool :=
  existsb (includes lower) (keywords c).

(** First match in priority order, clear/sunny when nothing matches. *)
Definition classify (weather : jsstring) : Category :=
  default Clear (List.find (matches (toLowerCase weather)) priority).

(** The two vertical bars of the pattern and the middle dot. *)
Definition is_bar (c : N) : bool := (c =? 0x7C) || (c =? 0xFF5C).

Definition normalize_bars (s : jsstring) : jsstring :=
  map (fun c => if is_bar c then 0xB7 else c) s.

(** Province and city joined by a middle dot, empty parts skipped. *)
Definition compose (province city : option jsstring) : jsstring :=
  join [0xB7] (List.filter (fun part => negb (str_eqb part []))
                           (omap id [province; city])).

(** The candidates of the fallback chain, in order. *)
Definition location_candidates (d : option PayloadData) : list jsstring :=
  let field (get : PayloadData -> option jsstring) : option jsstring := d ≫= get in
  [ default [] (field (fun d => d_weatherData d ≫= wi_region));
    default [] (field d_region);
    default [] (field d_location);
    compose (field d_province) (field d_city) ].

(** First candidate that resolves to a non-empty string, bars normalised;
    the placeholder when none does. *)
Definition resolveLocation (p : JinriShiciData) : jsstring :=
  match List.find (fun c => negb (str_eqb c [])) (location_candidates (data p)) with
  | Some s => normalize_bars s
  | None => utf16 "未知位置"
  end.

(** A field that is present but holds the empty string, or is absent. *)
Definition blank (o : option jsstring) : Prop := o = Some [] \/ o = None.

(** A blank field read as an absent one. *)
Definition blank_to_absent (o : option jsstring) : option jsstring :=
  match o with
  | Some (c :: s) => Some (c :: s)
  | _ => None
  end.

Definition erase_blanks (p : JinriShiciData) : JinriShiciData :=
  {| status := status p; message := message p;
     data :=
       (fun d =>
          {| d_weatherData :=
               (fun wi =>
                  {| wi_temperature := wi_temperature wi; wi_humidity := wi_humidity wi;
                     wi_weather := wi_weather wi; wi_wind := wi_wind wi;
                     wi_airQuality := wi_airQuality wi;
                     wi_region := blank_to_absent (wi_region wi) |}) <$> d_weatherData d;
             d_tags := d_tags d; d_poetryTokens := d_poetryTokens d;
             d_inspirationTokens := d_inspirationTokens d;
             d_region := blank_to_absent (d_region d);
             d_location := blank_to_absent (d_location d);
             d_city := blank_to_absent (d_city d);
             d_province := blank_to_absent (d_province d) |}) <$> data p |}.

(** The failures of a fetch, each with the message the error state gets:
    the transport fails, the HTTP status is not OK, the body cannot be
    read, or the body reports a status other than success. *)
Inductive FetchFailure : FetchOutcome -> jsstring -> Prop :=
| transport_failure :
    FetchFailure Rejected (utf16 "天气数据获取失败")
| http_failure r :
    ok r = false ->
    FetchFailure (Fulfilled r) (utf16 "天气数据获取失败")
| body_failure r :
    ok r = true -> body r = None ->
    FetchFailure (Fulfilled r) (utf16 "天气数据获取失败")
| application_failure r d :
    ok r = true -> body r = Some d -> status d <> utf16 "success" ->
    FetchFailure (Fulfilled r) (or_else (message d) (utf16 "获取天气数据失败")).

Inductive FetchSuccess : FetchOutcome -> JinriShiciData -> Prop :=
| fetch_success r d :
    ok r = true -> body r = Some d -> status d = utf16 "success" ->
    FetchSuccess (Fulfilled r) d.

(** The three visual states and their precedence. *)
Inductive VisualState := Loading | Unavailable | Success.

Definition precedence (s : State) : VisualState :=
  if loading s then Loading
  else
    match error s, weatherData s with
    | None, Some _ => Success
    | _, _ => Unavailable
    end.

Definition pill (v : VisualState) (s : State) : Node :=
  match v with
  | Loading => loadingPill
  | Unavailable => errorPill
  | Success => successPill s
  end.

(** What holds of the timers in every world: the only interval is the one
    the pending cleanup will clear, its period is ten minutes, its handle
    has been handed out already, and there is a pending cleanup only while
    the component is mounted. *)
Definition timers_ok (w : World) : Prop :=
  timers w = match cleanup w with
             | Some h => {[ h := 600000 ]}
             | None => ∅
             end /\
  forall h, cleanup w = Some h -> (h < next_handle w)%nat /\ mounted w = true.

(** The error state never holds a blank message. *)
Definition error_ok (w : World) : Prop := error (ui (cell w)) <> Some [].

(** A handle that was handed out and is no longer the one to clear. *)
Definition retired (h : nat) (w : World) : Prop :=
  timers_ok w /\ (h < next_handle w)%nat /\ cleanup w <> Some h.

(** Nothing was ever fetched or scheduled, and what is mounted is
    disabled. *)
Definition idle (w : World) : Prop :=
  requests w = 0%nat /\ timers w = ∅ /\ cleanup w = None /\
  forall config, props w = Some config -> disabled config = true.

(** The component is gone, no interval is left and [n] requests were made. *)
Definition torn_down (n : nat) (w : World) : Prop :=
  mounted w = false /\ timers w = ∅ /\ requests w = n.

(** The two ways the effect is torn down. *)
Definition is_teardown (e : Event) : bool :=
  match e with
  | Unmount | SetConfig _ => true
  | _ => false
  end.

(** The effect has a pending cleanup exactly while the component is
    mounted with an enabled configuration. *)
Definition effect_ok (w : World) : Prop :=
  match props w with
  | Some config => if disabled config then cleanup w = None else is_Some (cleanup w)
  | None => cleanup w = None
  end.

(** The events that can call [fetchWeather]: a run of the effect with an
    enabled configuration, and a tick of the interval. *)
Definition triggers (e : Event) : nat :=
  match e with
  | Mount config | SetConfig config => if disabled config then 0%nat else 1%nat
  | Tick _ => 1%nat
  | _ => 0%nat
  end.

(** An event that mounts or reconfigures the component does so with an
    absent or disabled configuration. *)
Definition keeps_disabled (e : Event) : bool :=
  match e with
  | Mount config | SetConfig config => disabled config
  | _ => true
  end.

Definition is_mount (e : Event) : bool :=
  match e with
  | Mount _ => true
  | _ => false
  end.

(** The [i]-th child of an element. *)
Definition nth_child (i : nat) (n : Node) : option Node :=
  match n with
  | Elem _ _ children => children !! i
  | _ => None
  end.

End Widget.

(** ** A host for the examples

    Whole numbers printed in decimal and lower-casing of the letters A-Z:
    what the engine does on whole numbers of ordinary size and on text made
    of ASCII and CJK ideographs. *)

Definition ascii_lower (s : jsstring) : jsstring :=
  map (fun c => if (0x41 <=? c) && (c <=? 0x5A) then c + 0x20 else c) s.

Definition Z_toString (z : Z) : jsstring :=
  utf16 (NilZero.string_of_int (Z.to_int z)).

#[export] Instance IntegerRuntime : Runtime :=
  {| number := Z; Number_toString := Z_toString; toLowerCase := ascii_lower |}.


(** ** Sample payloads and states, on the host above *)

Definition noStrings : option (list jsstring) := None.

Definition payload_without_data : JinriShiciData :=
  {| status := utf16 "success"; message := []; data := None |}.

Definition sample_info (t : option Z) (w region : option jsstring) : WeatherInfo :=
  {| wi_temperature := t; wi_humidity := None; wi_weather := w; wi_wind := None;
     wi_airQuality := None; wi_region := region |}.

Definition sample_data (wi : option WeatherInfo)
    (region location city province : option jsstring) : PayloadData :=
  {| d_weatherData := wi; d_tags := noStrings; d_poetryTokens := noStrings;
     d_inspirationTokens := noStrings; d_region := region; d_location := location;
     d_city := city; d_province := province |}.

Definition sample_payload (d : PayloadData) : JinriShiciData :=
  {| status := utf16 "success"; message := []; data := Some d |}.

(** Freezing weather with a blank description and a blank region. *)
Definition freezing : WeatherInfo := sample_info (Some 0%Z) (Some []) (Some []).

Definition freezing_data : PayloadData :=
  sample_data (Some freezing) (Some (utf16 "北京|朝阳")) None None None.

Definition server_error : FetchOutcome :=
  Fulfilled {| http_status := 500; body := None |}.

Definition answer (p : JinriShiciData) : FetchOutcome :=
  Fulfilled {| http_status := 200; body := Some p |}.

Definition enabledConfig : WeatherConfig := {| enabled := true |}.

(** Rain at 23 degrees, with a region in the weather block and another
    one at the top level. *)
Definition rainy : WeatherInfo :=
  sample_info (Some 23%Z) (Some (utf16 "Heavy RAIN")) (Some (utf16 "A")).

Definition rainy_data : PayloadData :=
  sample_data (Some rainy) (Some (utf16 "B")) None None None.

Definition bare_data : PayloadData := sample_data None None None None None.

Definition disabledConfig : WeatherConfig := {| enabled := false |}.

Definition freshCell : Cell := {| ui := initialState; console := [] |}.

Definition showing (p : JinriShiciData) : State :=
  {| weatherData := Some p; loading := false; error := None; isHovering := false |}.

Definition stale : Cell :=
  {| ui := showing (sample_payload freezing_data); console := [] |}.

(** The widget just mounted, and after its first fetch came back with a
    server error. *)
Definition mounted_world : World := run initialWorld [Mount (Some enabledConfig)].

Definition failed_world : World :=
  run initialWorld [Mount (Some enabledConfig); Settle server_error].

(** Two fetches in flight: the one of the effect and the one of the first
    tick. *)
Definition racing_world : World :=
  run initialWorld [Mount (Some enabledConfig); Tick 0%nat].

(** The widget showing the rainy payload. *)
Definition rainy_world : World :=
  run initialWorld [Mount (Some enabledConfig); Settle (answer (sample_payload rainy_data))].

(** A body that reports a failure of its own, without a message. *)
Definition refused : FetchOutcome :=
  Fulfilled {| http_status := 200;
               body := Some {| status := utf16 "error"; message := []; data := None |} |}.

(** * Properties *)

Arguments Utf8.utf16 : simpl never.

(** ** Strings *)

Example utf16_ascii : utf16 "rain" = [0x72; 0x61; 0x69; 0x6E].
Proof. reflexivity. Qed.

Example utf16_cjk : utf16 "晴云雨雪风" = [0x6674; 0x4E91; 0x96E8; 0x96EA; 0x98CE].
Proof. reflexivity. Qed.

Example utf16_bars : utf16 "|｜·" = [0x7C; 0xFF5C; 0xB7].
Proof. reflexivity. Qed.

Lemma startsWith_prefix (k s : jsstring) :
  startsWith s k = true <-> exists post, s = k ++ post.
Proof.
  revert s; induction k as [|a k IH]; intros s; simpl.
  - split; [intros _; by exists s | done].
  - destruct s as [|b s]; simpl.
    + split; [done | intros [post H]; discriminate].
    + rewrite andb_true_iff, N.eqb_eq, IH. split.
      * intros [-> [post ->]]. by exists post.
      * intros [post H]. injection H as -> ->. eauto.
Qed.

Lemma includes_substring (s k : jsstring) :
  includes s k = true <-> exists pre post, s = pre ++ k ++ post.
Proof.
  induction s as [|b s IH].
  - cbn [includes]. rewrite orb_false_r, startsWith_prefix. split.
    + intros [post H]. by exists [], post.
    + intros (pre & post & H). destruct pre; [by exists post | discriminate].
  - cbn [includes]. rewrite orb_true_iff, startsWith_prefix, IH. split.
    + intros [[post H] | (pre & post & H)].
      * by exists [], post.
      * exists (b :: pre), post. by rewrite H.
    + intros (pre & post & H). destruct pre as [|c pre].
      * left. by exists post.
      * right. injection H as Hb Hs. subst. eauto.
Qed.

Lemma bar_class (c : N) : bool_decide (c ∈ utf16 "|｜") = is_bar c.
Proof.
  change (utf16 "|｜") with [0x7C; 0xFF5C]. unfold is_bar.
  destruct (N.eqb_spec c 0x7C) as [->|H1]; [done|].
  destruct (N.eqb_spec c 0xFF5C) as [->|H2]; [done|].
  apply bool_decide_eq_false_2. rewrite !elem_of_cons, elem_of_nil. tauto.
Qed.

Lemma replace_bars (s : jsstring) :
  replace_class (utf16 "|｜") (utf16 "·") s = normalize_bars s.
Proof.
  unfold replace_class, normalize_bars.
  induction s as [|c s IH]; [done|].
  cbn [flat_map map]. rewrite IH, bar_class. by destruct (is_bar c).
Qed.

Lemma normalize_bars_clean (s : jsstring) :
  Forall (fun c => is_bar c = false) (normalize_bars s).
Proof.
  induction s as [|c s IH]; constructor; [|done].
  by destruct (is_bar c) eqn:E.
Qed.

Lemma normalize_bars_nonempty (s : jsstring) : s <> [] -> normalize_bars s <> [].
Proof. by destruct s. Qed.

Lemma join_two_nonempty (sep a : jsstring) (rest : list jsstring) :
  a <> [] -> join sep (a :: rest) <> [].
Proof. destruct a, rest; done. Qed.

Lemma truthy_blank (o : option jsstring) : truthy (blank_to_absent o) = truthy o.
Proof. by destruct o as [[|]|]. Qed.

Lemma truthy_default (o : option jsstring) :
  truthy o = negb (str_eqb (default [] o) []).
Proof. by destruct o as [[|]|]. Qed.

Lemma truthy_Some (o : option jsstring) :
  truthy o = true -> exists c s, o = Some (c :: s).
Proof. destruct o as [[|c s]|]; try done. eauto. Qed.

Lemma compose_parts (province city : option jsstring) :
  compose province city = join (utf16 "·") (filter_Boolean [province; city]).
Proof. by destruct province as [[|c1 s1]|], city as [[|c2 s2]|]. Qed.

Lemma compose_nonempty (province city : option jsstring) :
  truthy city || truthy province = true ->
  join (utf16 "·") (filter_Boolean [province; city]) <> [].
Proof. by destruct province as [[|c1 s1]|], city as [[|c2 s2]|]. Qed.

Lemma compose_truthy (province city : option jsstring) :
  negb (str_eqb (join (utf16 "·") (filter_Boolean [province; city])) []) =
  truthy city || truthy province.
Proof. by destruct province as [[|c1 s1]|], city as [[|c2 s2]|]. Qed.

(** ** The field resolvers and the icon classifier *)

Section Resolvers.
Context `{RT : Runtime}.

Lemma matches_substring (lower : jsstring) (c : Category) :
  matches lower c = true <->
  exists k pre post, In k (keywords c) /\ lower = pre ++ k ++ post.
Proof.
  unfold matches. rewrite existsb_exists. split.
  - intros (k & Hk & Hi). apply includes_substring in Hi as (pre & post & ->). eauto.
  - intros (k & pre & post & Hk & ->). exists k. split; [done|].
    apply includes_substring. eauto.
Qed.

Lemma getWeatherIcon_classify (weather : jsstring) :
  getWeatherIcon weather = iconOf (classify weather).
Proof.
  unfold getWeatherIcon, classify, priority, matches. cbn [List.find keywords existsb].
  rewrite !orb_false_r.
  repeat (destruct (_ || _); [reflexivity|]). reflexivity.
Qed.

(** C4. For every weather description the icon is the one of the first
    category, in the order clear/sunny, cloudy, rain, snow, wind, one of
    whose keywords occurs in the lower-cased description; when no keyword
    occurs it is the clear/sunny icon.  A category matches exactly when a
    keyword is a substring of the lower-cased text, so two descriptions
    with the same lower-casing get the same icon. *)
Theorem getWeatherIcon_priority (weather : jsstring) :
  getWeatherIcon weather = iconOf (classify weather) /\
  (forall c, matches (toLowerCase weather) c = true <->
             exists k pre post, In k (keywords c) /\ toLowerCase weather = pre ++ k ++ post) /\
  ((forall c, matches (toLowerCase weather) c = false) -> classify weather = Clear) /\
  (forall other, toLowerCase other = toLowerCase weather ->
                 getWeatherIcon other = getWeatherIcon weather).
Proof.
  split; [|split; [|split]].
  - apply getWeatherIcon_classify.
  - intros c. apply matches_substring.
  - intros Hnone. unfold classify.
    destruct (List.find _ _) as [c'|] eqn:E; [|done].
    apply find_some in E as [Hin Hm]. by rewrite Hnone in Hm.
  - intros other Heq. unfold getWeatherIcon. by rewrite Heq.
Qed.

Lemma getCityInfo_absent_data (p : JinriShiciData) :
  data p = None -> getCityInfo (Some p) = utf16 "未知城市".
Proof. intros H. unfold getCityInfo. cbn [mbind option_bind]. by rewrite H. Qed.

Lemma getCityInfo_chain (p : JinriShiciData) (d : PayloadData) :
  data p = Some d -> getCityInfo (Some p) = resolveLocation p.
Proof.
  intros H. unfold getCityInfo, resolveLocation, location_candidates.
  cbn [mbind option_bind]. rewrite H. cbn [mbind option_bind List.find].
  rewrite <- !truthy_default.
  destruct (truthy (d_weatherData d ≫= wi_region)) eqn:E1.
  { rewrite E1. apply truthy_Some in E1 as (c & s & ->). apply replace_bars. }
  destruct (truthy (d_region d)) eqn:E2.
  { rewrite E2. apply truthy_Some in E2 as (c & s & ->). apply replace_bars. }
  destruct (truthy (d_location d)) eqn:E3.
  { rewrite E3. apply truthy_Some in E3 as (c & s & ->). apply replace_bars. }
  rewrite (compose_parts (d_province d) (d_city d)), compose_truthy.
  destruct (truthy (d_city d) || truthy (d_province d)) eqn:E4; [|done].
  pose proof (compose_nonempty _ _ E4) as Hne.
  destruct (join _ _) as [|c s] eqn:Ej; [done|]. apply replace_bars.
Qed.

Lemma placeholders_clean :
  Forall (fun c => is_bar c = false) (utf16 "未知城市") /\
  Forall (fun c => is_bar c = false) (utf16 "未知位置").
Proof. split; vm_compute; repeat constructor. Qed.

(** C1. For every payload whose [data] object is present the tooltip
    location is the first non-empty candidate of the chain
    [data.weatherData.region], [data.region], [data.location], province and
    city joined by a middle dot with empty parts skipped; it is the
    placeholder for an unknown location when no candidate resolves, and
    every vertical bar of the resolved string is replaced by a middle dot.
    For a payload without [data] the result is the unknown-city
    placeholder.  In both cases the result contains no vertical bar. *)
Theorem getCityInfo_fallback_chain (p : JinriShiciData) :
  getCityInfo (Some p) =
    match data p with
    | Some _ => resolveLocation p
    | None => utf16 "未知城市"
    end /\
  Forall (fun c => is_bar c = false) (getCityInfo (Some p)).
Proof.
  assert (getCityInfo (Some p) =
          match data p with Some _ => resolveLocation p | None => utf16 "未知城市" end) as Heq.
  { destruct (data p) as [d|] eqn:E.
    - by apply getCityInfo_chain with d.
    - by apply getCityInfo_absent_data. }
  split; [exact Heq|]. rewrite Heq.
  destruct (data p); [|apply placeholders_clean].
  unfold resolveLocation. destruct (List.find _ _).
  - apply normalize_bars_clean.
  - apply placeholders_clean.
Qed.

Lemma blank_to_absent_truthy (o : option jsstring) :
  truthy o = true -> blank_to_absent o = o.
Proof. by destruct o as [[|]|]. Qed.

Lemma filter_Boolean_blank (province city : option jsstring) :
  filter_Boolean [blank_to_absent province; blank_to_absent city] =
  filter_Boolean [province; city].
Proof. by destruct province as [[|]|], city as [[|]|]. Qed.

Lemma getCityInfo_nonempty (p : JinriShiciData) : getCityInfo (Some p) <> [].
Proof.
  destruct (data p) as [d|] eqn:Ed;
    [rewrite (getCityInfo_chain p d Ed) | by rewrite (getCityInfo_absent_data p Ed)].
  unfold resolveLocation. destruct (List.find _ _) as [s|] eqn:E; [|discriminate].
  apply find_some in E as [_ E]. apply normalize_bars_nonempty.
  intros ->. discriminate.
Qed.

Lemma blank_falsy (o : option jsstring) : blank o -> truthy o = false.
Proof. by intros [-> | ->]. Qed.

Lemma erase_blanks_same (p : JinriShiciData) :
  getCityInfo (Some (erase_blanks p)) = getCityInfo (Some p).
Proof.
  unfold getCityInfo, erase_blanks. cbn [mbind option_bind data].
  destruct (data p) as [d|]; [|done]. cbn [fmap option_fmap option_map d_weatherData
    d_region d_location d_city d_province].
  assert (((fun wi => {| wi_temperature := wi_temperature wi; wi_humidity := wi_humidity wi;
                         wi_weather := wi_weather wi; wi_wind := wi_wind wi;
                         wi_airQuality := wi_airQuality wi;
                         wi_region := blank_to_absent (wi_region wi) |}) <$> d_weatherData d)
            ≫= wi_region = blank_to_absent (d_weatherData d ≫= wi_region)) as ->.
  { by destruct (d_weatherData d). }
  rewrite !truthy_blank, filter_Boolean_blank.
  destruct (truthy (d_weatherData d ≫= wi_region)) eqn:E1.
  { by rewrite (blank_to_absent_truthy _ E1). }
  destruct (truthy (d_region d)) eqn:E2.
  { by rewrite (blank_to_absent_truthy _ E2). }
  destruct (truthy (d_location d)) eqn:E3.
  { by rewrite (blank_to_absent_truthy _ E3). }
  reflexivity.
Qed.

(** What [getCityInfo] returns once the candidates before the one that
    resolves are known to be blank. *)
Lemma getCityInfo_steps (p : JinriShiciData) (d : PayloadData) :
  data p = Some d ->
  getCityInfo (Some p) =
    if truthy (d_weatherData d ≫= wi_region)
    then normalize_bars (default [] (d_weatherData d ≫= wi_region))
    else if truthy (d_region d) then normalize_bars (default [] (d_region d))
    else if truthy (d_location d) then normalize_bars (default [] (d_location d))
    else if truthy (d_city d) || truthy (d_province d)
    then normalize_bars (join (utf16 "·") (filter_Boolean [d_province d; d_city d]))
    else utf16 "未知位置".
Proof.
  intros Hd. unfold getCityInfo.
  assert (Some p ≫= data = Some d) as -> by exact Hd.
  destruct (truthy (d_weatherData d ≫= wi_region)) eqn:E1.
  { rewrite E1. apply replace_bars. }
  destruct (truthy (d_region d)) eqn:E2.
  { rewrite E2. apply replace_bars. }
  destruct (truthy (d_location d)) eqn:E3.
  { rewrite E3. apply replace_bars. }
  destruct (truthy (d_city d) || truthy (d_province d)) eqn:E4; [|done].
  pose proof (compose_nonempty _ _ E4) as Hne.
  destruct (join _ _) as [|c s] eqn:Ej; [done|]. apply replace_bars.
Qed.

(** C9. In the location chain a field that holds the empty string counts
    as absent.  A non-empty [data.weatherData.region] is the result; when
    it is blank (empty or absent) a non-empty [data.region] is the result;
    when both are blank a non-empty [data.location] is; when all three are
    blank the result is province and city joined by a middle dot, a blank
    one of the two being skipped, and the unknown-location placeholder when
    both are blank (vertical bars replaced throughout).  So a blank
    candidate lets the next one through, erasing every blank field does
    not change the result, and the result is never the empty string. *)
Theorem getCityInfo_blank_is_absent (p : JinriShiciData) :
  getCityInfo (Some (erase_blanks p)) = getCityInfo (Some p) /\
  getCityInfo (Some p) <> [] /\
  (forall d, data p = Some d ->
     (forall c s, d_weatherData d ≫= wi_region = Some (c :: s) ->
        getCityInfo (Some p) = normalize_bars (c :: s)) /\
     (blank (d_weatherData d ≫= wi_region) ->
      forall c s, d_region d = Some (c :: s) ->
        getCityInfo (Some p) = normalize_bars (c :: s)) /\
     (blank (d_weatherData d ≫= wi_region) -> blank (d_region d) ->
      forall c s, d_location d = Some (c :: s) ->
        getCityInfo (Some p) = normalize_bars (c :: s)) /\
     (blank (d_weatherData d ≫= wi_region) -> blank (d_region d) ->
      blank (d_location d) ->
      (forall c s c' s', d_province d = Some (c :: s) -> d_city d = Some (c' :: s') ->
         getCityInfo (Some p) = normalize_bars ((c :: s) ++ utf16 "·" ++ (c' :: s'))) /\
      (forall c s, d_province d = Some (c :: s) -> blank (d_city d) ->
         getCityInfo (Some p) = normalize_bars (c :: s)) /\
      (forall c s, blank (d_province d) -> d_city d = Some (c :: s) ->
         getCityInfo (Some p) = normalize_bars (c :: s)) /\
      (blank (d_province d) -> blank (d_city d) ->
         getCityInfo (Some p) = utf16 "未知位置"))).
Proof.
  split; [apply erase_blanks_same|]. split; [apply getCityInfo_nonempty|].
  intros d Hd. rewrite (getCityInfo_steps p d Hd).
  split; [|split; [|split]].
  - intros c s H. unfold jsstring in *. by rewrite H.
  - intros H1 c s H2. apply blank_falsy in H1. unfold jsstring in *. by rewrite H1, H2.
  - intros H1 H2 c s H3. apply blank_falsy in H1, H2. unfold jsstring in *.
    by rewrite H1, H2, H3.
  - intros H1 H2 H3. apply blank_falsy in H1, H2, H3. unfold jsstring in *.
    rewrite H1, H2, H3.
    split; [|split; [|split]].
    + intros c s c' s' -> ->. reflexivity.
    + intros c s -> [-> | ->]; reflexivity.
    + intros c s [-> | ->] ->; reflexivity.
    + intros [-> | ->] [-> | ->]; reflexivity.
Qed.

End Resolvers.

(** ** Fetching *)

Section Fetching.
Context `{RT : Runtime}.

Lemma or_else_nonempty (a d : jsstring) : d <> [] -> or_else a d <> [].
Proof. by destruct a. Qed.

Lemma failure_message_nonempty (net : FetchOutcome) (msg : jsstring) :
  FetchFailure net msg -> msg <> [].
Proof. destruct 1; try discriminate. by apply or_else_nonempty. Qed.

Lemma outcome_cases (net : FetchOutcome) :
  (exists msg, FetchFailure net msg) \/ (exists d, FetchSuccess net d).
Proof.
  destruct net as [|r]; [left; eexists; constructor|].
  destruct (ok r) eqn:Eok; [|left; eexists; by apply http_failure].
  destruct (body r) as [d|] eqn:Eb; [|left; eexists; by apply body_failure].
  destruct (decide (status d = utf16 "success")) as [Es|Es].
  - right. exists d. by constructor.
  - left. eexists. by eapply application_failure.
Qed.

(** What a failed fetch leaves in the component state. *)
Lemma fetchWeather_failure (net : FetchOutcome) (msg : jsstring) (c : Cell) :
  FetchFailure net msg ->
  (fetchWeather net c).2 = inr tt /\
  ui (fetchWeather net c).1 =
    {| weatherData := weatherData (ui c); loading := false;
       error := Some msg; isHovering := isHovering (ui c) |}.
Proof.
  destruct 1 as [|r Hok|r Hok Hb|r d Hok Hb Hs];
    unfold fetchWeather, fetchWeather_start, fetchWeather_settle, try_catch_finally,
      await_fetch, await_json, mbind, M_bind, mret, M_ret, throw, str_eqb;
    cbn; rewrite ?Hok; cbn; rewrite ?Hb; cbn; try done.
  by rewrite bool_decide_eq_false_2.
Qed.

Lemma fetchWeather_success (net : FetchOutcome) (d : JinriShiciData) (c : Cell) :
  FetchSuccess net d ->
  (fetchWeather net c).2 = inr tt /\
  fetchWeather net c =
    ({| ui := {| weatherData := Some d; loading := false;
                 error := None; isHovering := isHovering (ui c) |};
        console := console c |}, inr tt).
Proof.
  destruct 1 as [r d Hok Hb Hs].
  unfold fetchWeather, fetchWeather_start, fetchWeather_settle, try_catch_finally,
    await_fetch, await_json, mbind, M_bind, mret, M_ret, throw, str_eqb.
  cbn. rewrite Hok. cbn. rewrite Hb. cbn. by rewrite bool_decide_eq_true_2.
Qed.

Lemma errorPill_text : textContent errorPill = utf16 "天气不可用".
Proof. reflexivity. Qed.

Lemma render_enabled (config : WeatherConfig) (s : State) :
  enabled config = true ->
  render (Some config) s =
    if loading s then Some loadingPill
    else if truthy (error s) || negb (bool_decide (is_Some (weatherData s)))
    then Some errorPill else Some (successPill s).
Proof. intros H. unfold render, disabled. by rewrite H. Qed.

(** C2. A fetch that fails, because the transport fails, the HTTP status
    is not OK, the body cannot be read or the body's status is not
    success, completes without an exception: [fetchWeather] returns
    normally, the error state holds a non-empty message (the body's
    message when it has one, a fixed default otherwise), the loading flag
    is off, and an enabled widget renders the pill reading that the
    weather is unavailable. *)
Theorem fetch_failure_caught (net : FetchOutcome) (msg : jsstring) (c : Cell)
    (config : WeatherConfig) :
  FetchFailure net msg -> enabled config = true ->
  (fetchWeather net c).2 = inr tt /\
  loading (ui (fetchWeather net c).1) = false /\
  error (ui (fetchWeather net c).1) = Some msg /\
  msg <> [] /\
  render (Some config) (ui (fetchWeather net c).1) = Some errorPill /\
  textContent errorPill = utf16 "天气不可用".
Proof.
  intros Hf Hen.
  pose proof (failure_message_nonempty net msg Hf) as Hne.
  destruct (fetchWeather_failure net msg c Hf) as [Hr Hu].
  rewrite render_enabled, Hu by done. cbn [loading error weatherData].
  repeat split; try done.
  by destruct msg.
Qed.

(** C7. A fetch whose body has status success replaces the stored
    snapshot by the new payload, whatever was stored before; a fetch that
    fails leaves the stored snapshot as it was. *)
Theorem fetch_snapshot (net : FetchOutcome) (c : Cell) :
  (forall d, FetchSuccess net d ->
             weatherData (ui (fetchWeather net c).1) = Some d) /\
  (forall msg, FetchFailure net msg ->
               weatherData (ui (fetchWeather net c).1) = weatherData (ui c)).
Proof.
  split.
  - intros d Hs. destruct (fetchWeather_success net d c Hs) as [_ ->]. reflexivity.
  - intros msg Hf. destruct (fetchWeather_failure net msg c Hf) as [_ ->]. reflexivity.
Qed.

Lemma temperature_child (s : State) :
  nth_child 1 (successPill s) =
    Some (Elem span "font-medium text-slate-700 dark:text-slate-300"
            [child (temperature (getCurrentWeather (weatherData s))); Text (utf16 "°C")]).
Proof. reflexivity. Qed.

Lemma description_child (s : State) :
  nth_child 2 (successPill s) =
    Some (Elem span "text-slate-500 dark:text-slate-400 hidden 2xl:inline"
            [Text (weather (getCurrentWeather (weatherData s)))]).
Proof. reflexivity. Qed.

Lemma icon_child (s : State) :
  nth_child 0 (successPill s) =
    Some (getWeatherIcon (weather (getCurrentWeather (weatherData s)))).
Proof. reflexivity. Qed.

Lemma getCurrentWeather_present (p : JinriShiciData) (d : PayloadData) (wi : WeatherInfo) :
  data p = Some d -> d_weatherData d = Some wi ->
  getCurrentWeather (Some p) =
    {| temperature := nullish Num (wi_temperature wi) (Str (utf16 "--"));
       weather := nullish id (wi_weather wi) (utf16 "未知");
       humidity := nullish Num (wi_humidity wi) (Str (utf16 "--"));
       airQuality := nullish id (wi_airQuality wi) (utf16 "--") |}.
Proof.
  intros Hd Hw. unfold getCurrentWeather. cbn [mbind option_bind].
  by rewrite Hd, Hw.
Qed.

Lemma getCurrentWeather_missing (p : JinriShiciData) :
  data p ≫= d_weatherData = None ->
  getCurrentWeather (Some p) =
    {| temperature := Str (utf16 "--"); weather := utf16 "未知";
       humidity := Str (utf16 "--"); airQuality := utf16 "--" |}.
Proof.
  intros H. unfold getCurrentWeather. cbn [mbind option_bind].
  destruct (data p) as [d|]; [|done]. cbn [mbind option_bind] in H. by rewrite H.
Qed.

(** C5. After a fetch that succeeded, an enabled widget renders the
    success pill.  When the payload has a weather block with a temperature
    and a description, the pill shows the temperature printed and followed
    by the degree sign and C, the description, and the icon of the
    description's category; when the payload has no weather block, it
    shows two dashes before the unit and the placeholder for an unknown
    description. *)
Theorem success_pill_contents (net : FetchOutcome) (p : JinriShiciData) (c : Cell)
    (config : WeatherConfig) :
  FetchSuccess net p -> enabled config = true ->
  render (Some config) (ui (fetchWeather net c).1)
    = Some (successPill (ui (fetchWeather net c).1)) /\
  (forall d wi t w,
     data p = Some d -> d_weatherData d = Some wi ->
     wi_temperature wi = Some t -> wi_weather wi = Some w ->
     nth_child 0 (successPill (ui (fetchWeather net c).1)) = Some (iconOf (classify w)) /\
     textContent <$> nth_child 1 (successPill (ui (fetchWeather net c).1))
       = Some (Number_toString t ++ utf16 "°C") /\
     textContent <$> nth_child 2 (successPill (ui (fetchWeather net c).1)) = Some w) /\
  (data p ≫= d_weatherData = None ->
     textContent <$> nth_child 1 (successPill (ui (fetchWeather net c).1))
       = Some (utf16 "--°C") /\
     textContent <$> nth_child 2 (successPill (ui (fetchWeather net c).1))
       = Some (utf16 "未知")).
Proof.
  intros Hs Hen. destruct (fetchWeather_success net p c Hs) as [_ ->].
  cbn [fst ui]. split; [|split].
  - by rewrite render_enabled.
  - intros d wi t w Hd Hwi Ht Hw.
    rewrite icon_child, temperature_child, description_child. cbn [weatherData].
    rewrite (getCurrentWeather_present p d wi Hd Hwi), Ht, Hw.
    cbn [temperature weather nullish id]. rewrite getWeatherIcon_classify.
    repeat split; cbn; by rewrite ?app_nil_r.
  - intros Hm. rewrite temperature_child, description_child. cbn [weatherData].
    by rewrite (getCurrentWeather_missing p Hm).
Qed.

(** C10. The four weather fields fall back to their placeholder only when
    the field is absent: a field that is present is kept as it is, also
    when it is falsy.  A temperature that is present is printed before the
    unit, whatever its value, and a blank description is shown blank. *)
Theorem getCurrentWeather_keeps_falsy (p : JinriShiciData) (d : PayloadData)
    (wi : WeatherInfo) :
  data p = Some d -> d_weatherData d = Some wi ->
  temperature (getCurrentWeather (Some p)) =
    match wi_temperature wi with Some t => Num t | None => Str (utf16 "--") end /\
  weather (getCurrentWeather (Some p)) =
    match wi_weather wi with Some w => w | None => utf16 "未知" end /\
  humidity (getCurrentWeather (Some p)) =
    match wi_humidity wi with Some h => Num h | None => Str (utf16 "--") end /\
  airQuality (getCurrentWeather (Some p)) =
    match wi_airQuality wi with Some a => a | None => utf16 "--" end /\
  (forall t s, weatherData s = Some p -> wi_temperature wi = Some t ->
     textContent <$> nth_child 1 (successPill s) = Some (Number_toString t ++ utf16 "°C")) /\
  (forall s, weatherData s = Some p -> wi_weather wi = Some [] ->
     textContent <$> nth_child 2 (successPill s) = Some []).
Proof.
  intros Hd Hwi. rewrite (getCurrentWeather_present p d wi Hd Hwi).
  cbn [temperature weather humidity airQuality].
  repeat split.
  - intros t s Hs Ht. rewrite temperature_child, Hs.
    rewrite (getCurrentWeather_present p d wi Hd Hwi), Ht. cbn. by rewrite app_nil_r.
  - intros s Hs Hw. rewrite description_child, Hs.
    by rewrite (getCurrentWeather_present p d wi Hd Hwi), Hw.
Qed.

End Fetching.

(** ** The life cycle *)

Section Lifecycle.
Context `{RT : Runtime}.

Lemma run_cons (w : World) (e : Event) (events : list Event) :
  run w (e :: events) = run (step w e) events.
Proof. reflexivity. Qed.

(** A property kept by every event the list allows holds at the end. *)
Lemma run_invariant (P : World -> Prop) (allowed : Event -> bool) :
  (forall w e, allowed e = true -> P w -> P (step w e)) ->
  forall events w, forallb allowed events = true -> P w -> P (run w events).
Proof.
  intros Hstep events. induction events as [|e events IH]; intros w Hall Hw; [done|].
  cbn [forallb] in Hall. apply andb_true_iff in Hall as [He Hall].
  rewrite run_cons. apply IH; [done|]. by apply Hstep.
Qed.

Lemma forallb_any (events : list Event) : forallb (fun _ => true) events = true.
Proof. by induction events. Qed.

Lemma reachable_invariant (P : World -> Prop) :
  P initialWorld -> (forall w e, P w -> P (step w e)) ->
  forall w, reachable w -> P w.
Proof.
  intros H0 Hstep w [events ->].
  apply (run_invariant P (fun _ => true)); [by intros; apply Hstep | apply forallb_any | done].
Qed.

(** *** The error message is never blank *)

Lemma settle_error (net : FetchOutcome) (c : Cell) :
  error (ui c) <> Some [] -> error (ui (fetchWeather_settle net c).1) <> Some [].
Proof.
  intros H.
  unfold fetchWeather_settle, try_catch_finally, await_fetch, await_json,
    mbind, M_bind, mret, M_ret, throw, str_eqb.
  destruct net as [|r]; cbn; [discriminate|].
  destruct (ok r); cbn; [|discriminate].
  destruct (body r) as [d|]; cbn; [|discriminate].
  destruct (bool_decide _); cbn; [done|].
  intros [= E]. by apply (or_else_nonempty (message d) (utf16 "获取天气数据失败")).
Qed.

Lemma run_cleanup_cell (w : World) : cell (run_cleanup w) = cell w.
Proof. unfold run_cleanup. by destruct (cleanup w). Qed.

Lemma run_cleanup_props (w : World) : props (run_cleanup w) = props w.
Proof. unfold run_cleanup. by destruct (cleanup w). Qed.

Lemma run_cleanup_requests (w : World) : requests (run_cleanup w) = requests w.
Proof. unfold run_cleanup. by destruct (cleanup w). Qed.

Lemma run_cleanup_next_handle (w : World) : next_handle (run_cleanup w) = next_handle w.
Proof. unfold run_cleanup. by destruct (cleanup w). Qed.

Lemma run_cleanup_cleanup (w : World) : cleanup (run_cleanup w) = None.
Proof. unfold run_cleanup. by destruct (cleanup w) eqn:E. Qed.

Lemma run_cleanup_timers (w : World) :
  timers (run_cleanup w) =
    match cleanup w with
    | Some h => delete h (timers w)
    | None => timers w
    end.
Proof. unfold run_cleanup. by destruct (cleanup w). Qed.

Lemma call_fetchWeather_error (w : World) :
  error_ok w -> error_ok (call_fetchWeather w).
Proof.
  unfold error_ok, call_fetchWeather. cbn [cell].
  destruct (mounted w); [discriminate | done].
Qed.

Lemma run_effect_error (config : option WeatherConfig) (w : World) :
  error_ok w -> error_ok (run_effect config w).
Proof.
  intros H. unfold run_effect. destruct (disabled config); [done|].
  by apply call_fetchWeather_error in H.
Qed.

Lemma step_error_ok (w : World) (e : Event) : error_ok w -> error_ok (step w e).
Proof.
  intros H.
  destruct e as [config|config| |h|net|net| |]; cbn [step].
  - destruct (mounted w) eqn:Em; [done|]. apply run_effect_error. discriminate.
  - destruct (mounted w) eqn:Em; [|done]. apply run_effect_error.
    unfold error_ok. by rewrite run_cleanup_cell.
  - destruct (mounted w); [|done]. unfold error_ok in *. cbn [cell].
    by rewrite run_cleanup_cell.
  - destruct (timers w !! h); [|done]. by apply call_fetchWeather_error.
  - destruct (mounted w); [|done]. destruct (in_flight w); [done|].
    unfold error_ok in *. cbn [cell]. by apply settle_error.
  - by destruct (orphaned w).
  - by destruct (shows_success w).
  - by destruct (shows_success w).
Qed.

Lemma reachable_error_ok (w : World) : reachable w -> error_ok w.
Proof.
  apply (reachable_invariant error_ok); [discriminate | apply step_error_ok].
Qed.

Lemma pill_injective (s : State) (v v' : VisualState) : pill v s = pill v' s -> v = v'.
Proof. destruct v, v'; cbn; try done; discriminate. Qed.

(** C3. In every reachable state of an enabled widget the component
    renders exactly one of the three pills, the one the precedence
    selects: the loading pill when loading is set; otherwise the
    unavailable pill when an error is recorded or no snapshot is stored;
    otherwise the success pill.  The three pills are pairwise different. *)
Theorem render_precedence (w : World) (config : WeatherConfig) :
  reachable w -> enabled config = true ->
  render (Some config) (ui (cell w)) = Some (pill (precedence (ui (cell w))) (ui (cell w))) /\
  (forall v, pill v (ui (cell w)) = pill (precedence (ui (cell w))) (ui (cell w)) ->
             v = precedence (ui (cell w))) /\
  (loading (ui (cell w)) = true -> precedence (ui (cell w)) = Loading) /\
  (loading (ui (cell w)) = false ->
   error (ui (cell w)) <> None \/ weatherData (ui (cell w)) = None ->
   precedence (ui (cell w)) = Unavailable) /\
  (loading (ui (cell w)) = false -> error (ui (cell w)) = None ->
   weatherData (ui (cell w)) <> None -> precedence (ui (cell w)) = Success).
Proof.
  intros Hr Hen. pose proof (reachable_error_ok w Hr) as Herr. unfold error_ok in Herr.
  set (s := ui (cell w)) in *.
  split; [|split; [|split; [|split]]].
  - rewrite render_enabled by done. unfold precedence.
    destruct (loading s); [done|].
    destruct (error s) as [[|c m]|], (weatherData s) as [p|]; try done.
  - intros v. apply pill_injective.
  - unfold precedence. by intros ->.
  - unfold precedence. intros -> [H|H].
    + by destruct (error s), (weatherData s).
    + rewrite H. by destruct (error s).
  - unfold precedence. intros -> -> H. by destruct (weatherData s).
Qed.

(** *** Disabled configurations *)

Lemma render_disabled (config : option WeatherConfig) (s : State) :
  disabled config = true -> render config s = None.
Proof. intros H. unfold render. by rewrite H. Qed.

Lemma step_idle (w : World) (e : Event) :
  keeps_disabled e = true -> idle w -> idle (step w e).
Proof.
  intros He (Hreq & Htim & Hcl & Hprops).
  destruct e as [config|config| |h|net|net| |]; cbn [step keeps_disabled] in *.
  - destruct (mounted w); [done|]. unfold run_effect. rewrite He.
    repeat split; try done. cbn. by intros ? [= <-].
  - destruct (mounted w); [|done]. unfold run_effect. rewrite He.
    unfold run_cleanup. cbn [with_props cleanup]. rewrite Hcl.
    repeat split; try done. cbn. by intros ? [= <-].
  - destruct (mounted w) eqn:Em; [|done]. unfold run_cleanup. rewrite Hcl.
    repeat split; try done.
  - rewrite Htim, lookup_empty. done.
  - destruct (mounted w); [|done]. by destruct (in_flight w).
  - by destruct (orphaned w).
  - by destruct (shows_success w).
  - by destruct (shows_success w).
Qed.

Lemma idle_view (w : World) : idle w -> view w = None.
Proof.
  intros (_ & _ & _ & Hprops). unfold view.
  destruct (props w) as [config|]; [|done]. by apply render_disabled, Hprops.
Qed.

(** C6. With a configuration that is absent or has [enabled] false the
    component renders nothing and its effect neither fetches nor sets an
    interval; and as long as every configuration the component is given is
    absent or disabled, no request is ever made, no interval exists and the
    page shows nothing of the component. *)
Theorem disabled_is_silent (config : option WeatherConfig) :
  disabled config = true ->
  (forall s, render config s = None) /\
  (forall w, requests (run_effect config w) = requests w /\
             timers (run_effect config w) = timers w /\
             cell (run_effect config w) = cell w) /\
  (forall events, forallb keeps_disabled events = true ->
     requests (run initialWorld events) = 0%nat /\
     timers (run initialWorld events) = ∅ /\
     view (run initialWorld events) = None).
Proof.
  intros Hd. split; [|split].
  - intros s. by apply render_disabled.
  - intros w. unfold run_effect. by rewrite Hd.
  - intros events Hall.
    assert (idle (run initialWorld events)) as Hidle.
    { apply (run_invariant idle keeps_disabled); [apply step_idle | done |].
      repeat split; done. }
    split; [apply Hidle | split; [apply Hidle | by apply idle_view]].
Qed.

(** *** The interval *)

Lemma call_fetchWeather_timers_ok (w : World) :
  timers_ok w -> timers_ok (call_fetchWeather w).
Proof. done. Qed.

Lemma run_effect_timers_ok (config : option WeatherConfig) (w : World) :
  timers w = ∅ -> mounted w = true -> timers_ok (run_effect config w).
Proof.
  intros Ht Hm. unfold run_effect, timers_ok.
  destruct (disabled config); cbn [timers cleanup next_handle call_fetchWeather].
  - split; [done|]. intros h [=].
  - rewrite Ht, insert_empty. split; [done|].
    intros h [= <-]. split; [lia | done].
Qed.

Lemma timers_ok_unmounted (w : World) :
  timers_ok w -> mounted w = false -> cleanup w = None /\ timers w = ∅.
Proof.
  intros [Ht Hc] Hm. destruct (cleanup w) as [h|] eqn:E; [|done].
  destruct (Hc h eq_refl) as [_ Hm']. congruence.
Qed.

Lemma run_cleanup_clears (w : World) : timers_ok w -> timers (run_cleanup w) = ∅.
Proof.
  intros [Ht _]. rewrite run_cleanup_timers.
  destruct (cleanup w) as [h|]; [|done]. rewrite Ht. apply delete_singleton_eq.
Qed.

Lemma with_props_timers_ok (config : option WeatherConfig) (w : World) :
  timers_ok w -> timers_ok (with_props (Some config) w).
Proof.
  intros [Ht Hc]. split; [done|]. intros h Hh. split; [|done]. by apply Hc.
Qed.

Lemma step_timers_ok (w : World) (e : Event) : timers_ok w -> timers_ok (step w e).
Proof.
  intros H.
  destruct e as [config|config| |h|net|net| |]; cbn [step].
  - destruct (mounted w) eqn:Em; [done|].
    apply run_effect_timers_ok; [|done]. cbn [timers with_props with_cell].
    by destruct (timers_ok_unmounted w H Em).
  - destruct (mounted w) eqn:Em; [|done].
    apply run_effect_timers_ok.
    + by apply run_cleanup_clears, with_props_timers_ok.
    + unfold mounted. by rewrite run_cleanup_props.
  - destruct (mounted w) eqn:Em; [|done]. unfold timers_ok. cbn [timers cleanup].
    rewrite run_cleanup_cleanup, (run_cleanup_clears w H). split; [done|]. intros h [=].
  - destruct (timers w !! h); [|done]. by apply call_fetchWeather_timers_ok.
  - destruct (mounted w); [|done]. by destruct (in_flight w).
  - by destruct (orphaned w).
  - by destruct (shows_success w).
  - by destruct (shows_success w).
Qed.

Lemma reachable_timers_ok (w : World) : reachable w -> timers_ok w.
Proof.
  apply (reachable_invariant timers_ok); [|apply step_timers_ok].
  split; [done|]. intros h [=].
Qed.

Lemma retired_lookup (h : nat) (w : World) : retired h w -> timers w !! h = None.
Proof.
  intros ([Ht _] & _ & Hc). rewrite Ht.
  destruct (cleanup w) as [h'|]; [|apply lookup_empty].
  apply lookup_singleton_ne. congruence.
Qed.

Lemma next_handle_step (w : World) (e : Event) :
  (next_handle w <= next_handle (step w e))%nat.
Proof.
  destruct e as [config|config| |h|net|net| |]; cbn [step].
  - destruct (mounted w); [done|]. unfold run_effect.
    destruct (disabled config); cbn; lia.
  - destruct (mounted w); [|done]. unfold run_effect.
    destruct (disabled config); cbn [next_handle call_fetchWeather];
      rewrite run_cleanup_next_handle; cbn; lia.
  - destruct (mounted w); [|done]. cbn [next_handle]. by rewrite run_cleanup_next_handle.
  - by destruct (timers w !! h).
  - destruct (mounted w); [|done]. by destruct (in_flight w).
  - by destruct (orphaned w).
  - by destruct (shows_success w).
  - by destruct (shows_success w).
Qed.

(** The pending cleanup after an event is the old one or a fresh handle. *)
Lemma cleanup_step (w : World) (e : Event) (h : nat) :
  cleanup (step w e) = Some h -> cleanup w = Some h \/ (next_handle w <= h)%nat.
Proof.
  destruct e as [config|config| |h'|net|net| |]; cbn [step].
  - destruct (mounted w); [by left|]. unfold run_effect.
    destruct (disabled config); cbn; [done|]. intros [= <-]. by right.
  - destruct (mounted w); [|by left]. unfold run_effect.
    destruct (disabled config); cbn [cleanup next_handle call_fetchWeather]; [done|].
    rewrite run_cleanup_next_handle. intros [= <-]. by right.
  - destruct (mounted w); [|by left]. cbn [cleanup]. by rewrite run_cleanup_cleanup.
  - destruct (timers w !! h'); by left.
  - destruct (mounted w); [|by left]. destruct (in_flight w); by left.
  - destruct (orphaned w); by left.
  - destruct (shows_success w); by left.
  - destruct (shows_success w); by left.
Qed.

Lemma step_retired (h : nat) (w : World) (e : Event) :
  retired h w -> retired h (step w e).
Proof.
  intros (Hok & Hlt & Hne). split; [by apply step_timers_ok|]. split.
  - pose proof (next_handle_step w e). lia.
  - intros Hc. apply cleanup_step in Hc as [Hc|Hc]; [done | lia].
Qed.

Lemma teardown_retires (h : nat) (w : World) (e : Event) :
  timers_ok w -> cleanup w = Some h -> is_teardown e = true -> retired h (step w e).
Proof.
  intros Hok Hc He. pose proof Hok as [_ Hlt]. destruct (Hlt h Hc) as [Hh Hm].
  split; [by apply step_timers_ok|]. split.
  - pose proof (next_handle_step w e). lia.
  - destruct e as [config|config| |h'|net|net| |]; try done; cbn [step]; rewrite Hm.
    + unfold run_effect.
      destruct (disabled config); cbn [cleanup next_handle call_fetchWeather]; [done|].
      rewrite run_cleanup_next_handle. cbn. intros [= E]. lia.
    + cbn [cleanup]. by rewrite run_cleanup_cleanup.
Qed.

Lemma shows_success_unmounted (w : World) : mounted w = false -> shows_success w = false.
Proof. unfold mounted, shows_success. by destruct (props w). Qed.

Lemma step_torn_down (n : nat) (w : World) (e : Event) :
  negb (is_mount e) = true -> torn_down n w -> torn_down n (step w e).
Proof.
  intros He (Hm & Ht & Hn).
  destruct e as [config|config| |h|net|net| |]; try done; cbn [step];
    rewrite ?Hm, ?(shows_success_unmounted w Hm); try done.
  - by rewrite Ht, lookup_empty.
  - by destruct (orphaned w).
Qed.

Lemma unmount_torn_down (w : World) :
  timers_ok w -> torn_down (requests w) (step w Unmount).
Proof.
  intros Hok. cbn [step]. destruct (mounted w) eqn:Em.
  - split; [done|]. cbn [timers requests].
    by rewrite (run_cleanup_clears w Hok), run_cleanup_requests.
  - split; [done|]. split; [|done]. by apply timers_ok_unmounted.
Qed.

(** C8. In every reachable world the only interval is the ten-minute one
    the mounted component owns, and none exists while the component is not
    mounted.  Once the effect is torn down, by unmounting or by a change
    of configuration, the handle it had registered is never in the timer
    table again, so a tick of that handle changes nothing; and after
    unmounting no interval is left and no further request is made by any
    later tick, settlement or pointer event, until a new mount. *)
Theorem teardown_cancels_interval (w : World) :
  reachable w ->
  (mounted w = false -> timers w = ∅) /\
  (forall h, cleanup w = Some h ->
     mounted w = true /\ timers w = {[ h := 600000 ]} /\
     forall e events, is_teardown e = true ->
       timers (run (step w e) events) !! h = None /\
       step (run (step w e) events) (Tick h) = run (step w e) events) /\
  (forall events, forallb (fun e => negb (is_mount e)) events = true ->
     timers (run (step w Unmount) events) = ∅ /\
     requests (run (step w Unmount) events) = requests w).
Proof.
  intros Hr. pose proof (reachable_timers_ok w Hr) as Hok.
  split; [|split].
  - intros Hm. by apply timers_ok_unmounted.
  - intros h Hc. destruct Hok as [Ht Hlt]. destruct (Hlt h Hc) as [Hh Hm].
    split; [done|]. split; [by rewrite Ht, Hc|].
    intros e events He.
    assert (retired h (run (step w e) events)) as Hret.
    { apply (run_invariant (retired h) (fun _ => true));
        [by intros; apply step_retired | apply forallb_any |].
      by apply teardown_retires. }
    apply retired_lookup in Hret. split; [done|]. cbn [step]. by rewrite Hret.
  - intros events Hall.
    assert (torn_down (requests w) (run (step w Unmount) events)) as (_ & Ht & Hn).
    { apply (run_invariant (torn_down (requests w)) (fun e => negb (is_mount e)));
        [apply step_torn_down | done | by apply unmount_torn_down]. }
    done.
Qed.

End Lifecycle.

(** ** Refreshing, overlapping fetches and the tooltip *)

Section Refresh.
Context `{RT : Runtime}.

(** *** What one settlement writes *)

Lemma settle_failure (net : FetchOutcome) (msg : jsstring) (c : Cell) :
  FetchFailure net msg ->
  ui (fetchWeather_settle net c).1 =
    {| weatherData := weatherData (ui c); loading := false;
       error := Some msg; isHovering := isHovering (ui c) |}.
Proof.
  destruct 1 as [|r Hok|r Hok Hb|r d Hok Hb Hs];
    unfold fetchWeather_settle, try_catch_finally,
      await_fetch, await_json, mbind, M_bind, mret, M_ret, throw, str_eqb;
    cbn; rewrite ?Hok; cbn; rewrite ?Hb; cbn; try done.
  by rewrite bool_decide_eq_false_2.
Qed.

Lemma settle_success (net : FetchOutcome) (d : JinriShiciData) (c : Cell) :
  FetchSuccess net d ->
  ui (fetchWeather_settle net c).1 =
    {| weatherData := Some d; loading := false;
       error := error (ui c); isHovering := isHovering (ui c) |}.
Proof.
  destruct 1 as [r d Hok Hb Hs].
  unfold fetchWeather_settle, try_catch_finally,
    await_fetch, await_json, mbind, M_bind, mret, M_ret, throw, str_eqb.
  cbn. rewrite Hok. cbn. rewrite Hb. cbn. by rewrite bool_decide_eq_true_2.
Qed.

Lemma success_not_failure (net : FetchOutcome) (d : JinriShiciData) (msg : jsstring) :
  FetchSuccess net d -> FetchFailure net msg -> False.
Proof.
  intros [r d' Hok Hb Hs] Hf. inversion Hf; subst; congruence.
Qed.

(** X6. [console.error] is called once for a failure that was thrown,
    with the exception that names the cause (for a status that is not
    OK, the status), and not at all for a success or for a body that
    reports a failure of its own. *)
Theorem console_logs_thrown (net : FetchOutcome) (c : Cell) :
  console (fetchWeather net c).1 =
    match net with
    | Rejected => NetworkFailure :: console c
    | Fulfilled r =>
      if ok r then
        match body r with
        | None => BodyError :: console c
        | Some _ => console c
        end
      else ApiError (http_status r) :: console c
    end.
Proof.
  unfold fetchWeather, fetchWeather_start, fetchWeather_settle, try_catch_finally,
    await_fetch, await_json, mbind, M_bind, mret, M_ret, throw, str_eqb.
  destruct net as [|r]; cbn; [done|].
  destruct (ok r); cbn; [|done].
  destruct (body r) as [d|]; cbn; [|done].
  by destruct (bool_decide _).
Qed.

(** *** Overlapping fetches *)

Lemma props_mounted (w : World) (config : option WeatherConfig) :
  props w = Some config -> mounted w = true.
Proof. unfold mounted. by intros ->. Qed.

Lemma step_settle (w : World) (net : FetchOutcome) (n : nat) :
  mounted w = true -> in_flight w = S n ->
  step w (Settle net) =
    {| props := props w; cell := (fetchWeather_settle net (cell w)).1;
       timers := timers w; next_handle := next_handle w; cleanup := cleanup w;
       requests := requests w; in_flight := n; orphaned := orphaned w |}.
Proof. intros Hm Hn. cbn [step]. by rewrite Hm, Hn. Qed.

Lemma view_enabled (w : World) (config : WeatherConfig) :
  props w = Some (Some config) -> enabled config = true ->
  view w = render (Some config) (ui (cell w)).
Proof. intros Hp _. unfold view. by rewrite Hp. Qed.

(** X5. With two fetches in flight, one that fails and one that succeeds,
    the widget ends in the same state whichever settles first: the new
    snapshot is stored, the error of the failed fetch stays recorded, the
    loading flag is off and the unavailable pill is shown.  The first
    settlement already clears the loading flag although a fetch is still
    in flight. *)
Theorem settlements_commute (w : World) (config : WeatherConfig) (n : nat)
    (bad good : FetchOutcome) (msg : jsstring) (d : JinriShiciData) :
  props w = Some (Some config) -> enabled config = true ->
  in_flight w = S (S n) ->
  FetchFailure bad msg -> FetchSuccess good d ->
  ui (cell (run w [Settle bad; Settle good])) =
    {| weatherData := Some d; loading := false; error := Some msg;
       isHovering := isHovering (ui (cell w)) |} /\
  ui (cell (run w [Settle good; Settle bad])) = ui (cell (run w [Settle bad; Settle good])) /\
  view (run w [Settle bad; Settle good]) = Some errorPill /\
  in_flight (run w [Settle bad; Settle good]) = n /\
  loading (ui (cell (step w (Settle bad)))) = false /\
  loading (ui (cell (step w (Settle good)))) = false /\
  in_flight (step w (Settle good)) = S n.
Proof.
  intros Hp Hen Hn Hf Hs. pose proof (props_mounted w _ Hp) as Hm.
  pose proof (failure_message_nonempty bad msg Hf) as Hne.
  unfold run. cbn [foldl].
  set (wb := step w (Settle bad)). set (wg := step w (Settle good)).
  assert (props wb = props w /\ in_flight wb = S n /\
          ui (cell wb) = {| weatherData := weatherData (ui (cell w)); loading := false;
                            error := Some msg; isHovering := isHovering (ui (cell w)) |})
    as (Hpb & Hnb & Hub).
  { unfold wb. rewrite (step_settle w bad (S n) Hm Hn). cbn [props in_flight cell].
    by rewrite (settle_failure bad msg). }
  assert (props wg = props w /\ in_flight wg = S n /\
          ui (cell wg) = {| weatherData := Some d; loading := false;
                            error := error (ui (cell w)); isHovering := isHovering (ui (cell w)) |})
    as (Hpg & Hng & Hug).
  { unfold wg. rewrite (step_settle w good (S n) Hm Hn). cbn [props in_flight cell].
    by rewrite (settle_success good d). }
  assert (mounted wb = true) as Hmb by (unfold mounted; by rewrite Hpb, Hp).
  assert (mounted wg = true) as Hmg by (unfold mounted; by rewrite Hpg, Hp).
  rewrite (step_settle wb good n Hmb Hnb), (step_settle wg bad n Hmg Hng).
  cbn [cell in_flight]. unfold view. cbn [props cell].
  rewrite (settle_success good d), (settle_failure bad msg) by done.
  rewrite Hub, Hug, Hpb, Hp. cbn [weatherData loading error isHovering].
  rewrite render_enabled by done. cbn [loading error].
  repeat split; try done. by destruct msg.
Qed.

(** *** Pointer events *)

Lemma tooltip_text (s : State) : textContent (tooltip s) = getCityInfo (weatherData s).
Proof. cbn. by rewrite !app_nil_r. Qed.

Lemma shows_success_view (w : World) :
  shows_success w = true <-> view w = Some (successPill (ui (cell w))).
Proof.
  unfold shows_success, view, render.
  destruct (props w) as [config|]; [|done].
  destruct (disabled config); cbn [negb andb]; [done|].
  destruct (loading (ui (cell w))); cbn [negb andb].
  { split; [done|]. intros H. apply (inj Some) in H.
    by apply (pill_injective (ui (cell w)) Loading Success) in H. }
  destruct (truthy _ || negb _); cbn [negb]; [|done].
  split; [done|]. intros H. apply (inj Some) in H.
  by apply (pill_injective (ui (cell w)) Unavailable Success) in H.
Qed.

(** X1. The pointer handlers exist exactly while the success pill is what
    the component shows.  Then the pointer entering sets the hover flag
    and the pointer leaving clears it, neither touches the snapshot, the
    loading flag, the error, the timers or the request count, and the
    success pill stays shown; the pill has a fourth child, the tooltip,
    exactly while the hover flag is set, and the tooltip reads the
    resolved location.  While anything else is shown (nothing, the loading
    pill or the unavailable pill) a pointer event changes nothing. *)
Theorem hover_shows_location (w : World) :
  (shows_success w = true <-> view w = Some (successPill (ui (cell w)))) /\
  (shows_success w = true ->
   (forall e, e = MouseEnter \/ e = MouseLeave ->
      weatherData (ui (cell (step w e))) = weatherData (ui (cell w)) /\
      loading (ui (cell (step w e))) = loading (ui (cell w)) /\
      error (ui (cell (step w e))) = error (ui (cell w)) /\
      timers (step w e) = timers w /\ requests (step w e) = requests w /\
      shows_success (step w e) = true) /\
   isHovering (ui (cell (step w MouseEnter))) = true /\
   isHovering (ui (cell (step w MouseLeave))) = false /\
   textContent <$> nth_child 3 (successPill (ui (cell (step w MouseEnter))))
     = Some (getCityInfo (weatherData (ui (cell w)))) /\
   nth_child 3 (successPill (ui (cell (step w MouseLeave)))) = None /\
   (forall i, (i < 3)%nat ->
      nth_child i (successPill (ui (cell (step w MouseEnter))))
      = nth_child i (successPill (ui (cell (step w MouseLeave)))))) /\
  (shows_success w = false -> step w MouseEnter = w /\ step w MouseLeave = w).
Proof.
  split; [apply shows_success_view|]. split.
  - intros Hs. split; [|split; [|split; [|split; [|split]]]].
    + intros e [-> | ->]; cbn [step]; rewrite Hs; by repeat split.
    + cbn [step]. by rewrite Hs.
    + cbn [step]. by rewrite Hs.
    + cbn [step]. rewrite Hs. cbn. by rewrite !app_nil_r.
    + cbn [step]. by rewrite Hs.
    + intros i Hi. cbn [step]. rewrite Hs.
      destruct i as [|[|[|i]]]; [done..|lia].
  - intros Hs. cbn [step]. by rewrite Hs.
Qed.

(** *** The effect and its interval *)

Lemma step_effect_ok (w : World) (e : Event) : effect_ok w -> effect_ok (step w e).
Proof.
  unfold effect_ok. intros H.
  destruct e as [config|config| |h|net|net| |]; cbn [step].
  - destruct (mounted w); [done|]. unfold run_effect.
    destruct (disabled config) eqn:Ed; cbn; rewrite Ed; [done | by eexists].
  - destruct (mounted w); [|done]. unfold run_effect.
    destruct (disabled config) eqn:Ed; cbn [props cleanup call_fetchWeather];
      rewrite run_cleanup_props; cbn; rewrite Ed; [done | by eexists].
  - destruct (mounted w); [|done]. cbn. apply run_cleanup_cleanup.
  - by destruct (timers w !! h).
  - destruct (mounted w); [|done]. by destruct (in_flight w).
  - by destruct (orphaned w).
  - by destruct (shows_success w).
  - by destruct (shows_success w).
Qed.

Lemma reachable_effect_ok (w : World) : reachable w -> effect_ok w.
Proof. apply (reachable_invariant effect_ok); [done | apply step_effect_ok]. Qed.

(** X8. In every reachable world the interval exists exactly while the
    component is mounted with an enabled configuration: then there is one
    timer, of ten minutes, and it is the one the cleanup will clear;
    unmounted, or mounted without an enabled configuration, there is no
    timer and nothing to clean up. *)
Theorem interval_while_enabled (w : World) :
  reachable w ->
  (forall config, props w = Some (Some config) -> enabled config = true ->
     exists h, cleanup w = Some h /\ timers w = {[ h := 600000 ]}) /\
  (props w = None \/ (exists config, props w = Some config /\ disabled config = true) ->
     cleanup w = None /\ timers w = ∅).
Proof.
  intros Hr. pose proof (reachable_effect_ok w Hr) as He.
  pose proof (reachable_timers_ok w Hr) as [Ht _]. unfold effect_ok in He.
  split.
  - intros config Hp Hen. rewrite Hp in He. cbn in He. rewrite Hen in He. cbn in He.
    destruct He as [h Hc]. exists h. split; [done|]. by rewrite Ht, Hc.
  - intros [Hp | (config & Hp & Hd)]; rewrite Hp in He; [|rewrite Hd in He];
      rewrite He in Ht; done.
Qed.

(** X2. Mounting with an enabled configuration calls [fetchWeather] at
    once: one request more goes out, the loading pill is shown, a
    ten-minute interval is registered under a fresh handle and it is the
    only timer. *)
Theorem mount_fetches_at_once (w : World) (config : WeatherConfig) :
  reachable w -> mounted w = false -> enabled config = true ->
  requests (step w (Mount (Some config))) = S (requests w) /\
  in_flight (step w (Mount (Some config))) = S (in_flight w) /\
  view (step w (Mount (Some config))) = Some loadingPill /\
  cleanup (step w (Mount (Some config))) = Some (next_handle w) /\
  timers (step w (Mount (Some config))) = {[ next_handle w := 600000 ]}.
Proof.
  intros Hr Hm Hen. pose proof (reachable_timers_ok w Hr) as Hok.
  destruct (timers_ok_unmounted w Hok Hm) as [_ Ht].
  cbn [step]. rewrite Hm. unfold run_effect, disabled. rewrite Hen.
  cbn [negb]. unfold view, call_fetchWeather.
  cbn [props cell timers cleanup requests in_flight next_handle mounted with_props with_cell].
  rewrite Ht, insert_empty, render_enabled by done.
  repeat split; done.
Qed.

(** X10. Passing another enabled configuration to the mounted component
    runs the effect again: the old interval is cleared and a new one is
    registered under a fresh handle, a request goes out at once and the
    loading pill is shown.  The stored snapshot is kept, and the fetches
    already in flight stay in flight. *)
Theorem reconfigure_restarts (w : World) (config : WeatherConfig) :
  reachable w -> mounted w = true -> enabled config = true ->
  requests (step w (SetConfig (Some config))) = S (requests w) /\
  in_flight (step w (SetConfig (Some config))) = S (in_flight w) /\
  view (step w (SetConfig (Some config))) = Some loadingPill /\
  weatherData (ui (cell (step w (SetConfig (Some config))))) = weatherData (ui (cell w)) /\
  cleanup (step w (SetConfig (Some config))) = Some (next_handle w) /\
  timers (step w (SetConfig (Some config))) = {[ next_handle w := 600000 ]}.
Proof.
  intros Hr Hm Hen. pose proof (reachable_timers_ok w Hr) as Hok.
  pose proof (run_cleanup_clears _ (with_props_timers_ok (Some config) w Hok)) as Ht.
  cbn [step]. rewrite Hm. unfold run_effect, disabled. rewrite Hen.
  cbn [negb]. unfold view, call_fetchWeather, mounted.
  cbn [props cell timers cleanup requests in_flight next_handle].
  rewrite Ht, run_cleanup_props, run_cleanup_cell, run_cleanup_requests,
    run_cleanup_next_handle, insert_empty.
  cbn [with_props props cell requests next_handle in_flight].
  rewrite render_enabled by done.
  assert (in_flight (run_cleanup (with_props (Some (Some config)) w)) = in_flight w) as ->.
  { unfold run_cleanup. by destruct (cleanup _). }
  repeat split; done.
Qed.

Lemma run_snoc (w : World) (events : list Event) (e : Event) :
  run w (events ++ [e]) = step (run w events) e.
Proof. unfold run. by rewrite foldl_snoc. Qed.

Lemma ticks_live (h : nat) (p : N) (n : nat) (w : World) :
  timers w !! h = Some p -> mounted w = true ->
  timers (run w (replicate n (Tick h))) = timers w /\
  mounted (run w (replicate n (Tick h))) = true /\
  props (run w (replicate n (Tick h))) = props w /\
  requests (run w (replicate n (Tick h))) = (requests w + n)%nat /\
  in_flight (run w (replicate n (Tick h))) = (in_flight w + n)%nat /\
  weatherData (ui (cell (run w (replicate n (Tick h))))) = weatherData (ui (cell w)) /\
  ((0 < n)%nat ->
   loading (ui (cell (run w (replicate n (Tick h))))) = true /\
   error (ui (cell (run w (replicate n (Tick h))))) = None).
Proof.
  intros Hh Hm. induction n as [|n IH].
  - cbn. repeat split; try done; try lia.
  - replace (replicate (S n) (Tick h)) with (replicate n (Tick h) ++ [Tick h])
      by (by rewrite <- replicate_S_end).
    rewrite run_snoc. destruct IH as (Ht & Hm' & Hp & Hr & Hi & Hw & _).
    set (w' := run w (replicate n (Tick h))) in *.
    cbn [step]. rewrite Ht, Hh.
    assert (mounted (call_fetchWeather w') = true) as Hmc by done.
    unfold call_fetchWeather in *.
    cbn [timers props requests in_flight cell] in *. rewrite Hm'.
    split; [done|]. split; [done|]. split; [done|].
    split; [lia|]. split; [lia|]. split; [done|]. done.
Qed.

Lemma failure_unique (net : FetchOutcome) (msg msg' : jsstring) :
  FetchFailure net msg -> FetchFailure net msg' -> msg = msg'.
Proof.
  intros H H'. pose proof (settle_failure net msg {| ui := initialState; console := [] |} H) as E.
  rewrite (settle_failure net msg' {| ui := initialState; console := [] |} H') in E. by injection E.
Qed.

Lemma success_unique (net : FetchOutcome) (d d' : JinriShiciData) :
  FetchSuccess net d -> FetchSuccess net d' -> d = d'.
Proof.
  intros H H'. pose proof (settle_success net d {| ui := initialState; console := [] |} H) as E.
  rewrite (settle_success net d' {| ui := initialState; console := [] |} H') in E. by injection E.
Qed.

(** X4. A refresh that starts while no other fetch is in flight ends with
    a state that tells how that refresh went: the loading flag is off,
    nothing is in flight, and the error is null exactly when the fetch
    succeeded, whatever error was recorded before the tick.  On success
    the payload is the stored snapshot; on failure the failure's message
    is the error and the snapshot of before the tick is kept. *)
Theorem refresh_result_is_fresh (w : World) (h : nat) (net : FetchOutcome) :
  reachable w -> cleanup w = Some h -> in_flight w = 0%nat ->
  loading (ui (cell (run w [Tick h; Settle net]))) = false /\
  in_flight (run w [Tick h; Settle net]) = 0%nat /\
  (error (ui (cell (run w [Tick h; Settle net]))) = None <-> exists d, FetchSuccess net d) /\
  (forall d, FetchSuccess net d ->
     weatherData (ui (cell (run w [Tick h; Settle net]))) = Some d) /\
  (forall msg, FetchFailure net msg ->
     error (ui (cell (run w [Tick h; Settle net]))) = Some msg /\
     weatherData (ui (cell (run w [Tick h; Settle net]))) = weatherData (ui (cell w))).
Proof.
  intros Hr Hc Hn. pose proof (reachable_timers_ok w Hr) as [Ht Hlt].
  destruct (Hlt h Hc) as [_ Hm].
  assert (timers w !! h = Some 600000) as Hh.
  { rewrite Ht, Hc. apply lookup_singleton_eq. }
  unfold run. cbn [foldl]. cbn [step]. rewrite Hh.
  assert (mounted (call_fetchWeather w) = true) as Hm' by exact Hm.
  assert (in_flight (call_fetchWeather w) = 1%nat) as Hn'.
  { unfold call_fetchWeather. cbn [in_flight]. by rewrite Hm, Hn. }
  fold (step (call_fetchWeather w) (Settle net)).
  rewrite (step_settle (call_fetchWeather w) net 0 Hm' Hn'). cbn [cell in_flight].
  assert (cell (call_fetchWeather w) = (fetchWeather_start (cell w)).1) as ->.
  { unfold call_fetchWeather. cbn [cell]. by rewrite Hm. }
  destruct (outcome_cases net) as [[msg Hf]|[d Hs]].
  - rewrite (settle_failure net msg _ Hf). cbn [loading error weatherData].
    split; [done|]. split; [done|]. split; [|split].
    + split; [done|]. intros [d Hs]. destruct (success_not_failure net d msg Hs Hf).
    + intros d Hs. destruct (success_not_failure net d msg Hs Hf).
    + intros msg' Hf'. by rewrite (failure_unique net msg msg' Hf Hf').
  - rewrite (settle_success net d _ Hs). cbn [loading error weatherData].
    split; [done|]. split; [done|]. split; [|split].
    + split; [by exists d | done].
    + intros d' Hs'. by rewrite (success_unique net d d' Hs Hs').
    + intros msg Hf. destruct (success_not_failure net d msg Hs Hf).
Qed.

(** X3. While the interval is registered every tick of it calls
    [fetchWeather] once more and the interval stays registered: after [n]
    ticks [n] more requests are out.  From the first tick on the loading
    pill is shown and the error is cleared, while the stored snapshot is
    kept. *)
Theorem interval_refetches (w : World) (h n : nat) :
  reachable w -> cleanup w = Some h ->
  requests (run w (replicate n (Tick h))) = (requests w + n)%nat /\
  timers (run w (replicate n (Tick h))) = timers w /\
  weatherData (ui (cell (run w (replicate n (Tick h))))) = weatherData (ui (cell w)) /\
  ((0 < n)%nat ->
   error (ui (cell (run w (replicate n (Tick h))))) = None /\
   view (run w (replicate n (Tick h))) = Some loadingPill).
Proof.
  intros Hr Hc. pose proof (reachable_timers_ok w Hr) as [Ht Hlt].
  destruct (Hlt h Hc) as [_ Hm].
  assert (timers w !! h = Some 600000) as Hh.
  { rewrite Ht, Hc. apply lookup_singleton_eq. }
  destruct (ticks_live h 600000 n w Hh Hm) as (Ht' & _ & Hp & Hreq & _ & Hw & Hl).
  split; [done|]. split; [done|]. split; [done|].
  intros Hn. destruct (Hl Hn) as [Hload Herr]. split; [done|].
  pose proof (reachable_effect_ok w Hr) as He. unfold effect_ok in He.
  unfold view. rewrite Hp.
  destruct (props w) as [config|] eqn:Ep; [|by rewrite Hc in He].
  unfold render. destruct (disabled config); [by rewrite Hc in He|].
  by rewrite Hload.
Qed.

(** *** Requests *)

Lemma step_requests (w : World) (e : Event) :
  (requests w <= requests (step w e) <= requests w + triggers e)%nat.
Proof.
  destruct e as [config|config| |h|net|net| |]; cbn [step triggers].
  - destruct (mounted w); [lia|]. unfold run_effect.
    destruct (disabled config); cbn; lia.
  - destruct (mounted w); [|lia]. unfold run_effect.
    destruct (disabled config); cbn [requests call_fetchWeather];
      rewrite run_cleanup_requests; cbn; lia.
  - destruct (mounted w); [|lia]. cbn [requests]. rewrite run_cleanup_requests. lia.
  - destruct (timers w !! h); cbn; lia.
  - destruct (mounted w); [|lia]. destruct (in_flight w); cbn; lia.
  - destruct (orphaned w); cbn; lia.
  - destruct (shows_success w); cbn; lia.
  - destruct (shows_success w); cbn; lia.
Qed.

(** X7. Requests are only ever added, one at a time, by a run of the
    effect with an enabled configuration or by a tick: over any sequence
    of events the request count never decreases and grows by at most the
    number of such events.  A settlement, failed or not, never issues a
    request, so a failed fetch is not retried before the next tick. *)
Theorem requests_bounded (w : World) (events : list Event) :
  (requests w <= requests (run w events)
              <= requests w + sum_list_with triggers events)%nat /\
  (forall nets, requests (run w (Settle <$> nets)) = requests w).
Proof.
  split.
  - revert w. induction events as [|e events IH]; intros w.
    + cbn. lia.
    + rewrite run_cons. cbn [sum_list_with].
      pose proof (step_requests w e) as He. pose proof (IH (step w e)) as Hrest. lia.
  - intros nets. revert w. induction nets as [|net nets IH]; intros w; [done|].
    rewrite fmap_cons, run_cons, IH.
    pose proof (step_requests w (Settle net)) as He. cbn [triggers] in He. lia.
Qed.

(** X9. When the payload gives no weather description the success pill
    reads the placeholder for an unknown description and carries the
    clear/sunny icon, on every host whose lower-casing leaves the
    placeholder as it is. *)
Theorem unknown_weather_is_sunny (s : State) (p : JinriShiciData) :
  toLowerCase (utf16 "未知") = utf16 "未知" ->
  weatherData s = Some p ->
  (data p ≫= d_weatherData) ≫= wi_weather = None ->
  nth_child 0 (successPill s) = Some (Icon Sun "w-4 h-4 text-yellow-500") /\
  textContent <$> nth_child 2 (successPill s) = Some (utf16 "未知").
Proof.
  intros Hlow Hs Hnone.
  assert (weather (getCurrentWeather (Some p)) = utf16 "未知") as Hw.
  { destruct (data p ≫= d_weatherData) as [wi|] eqn:Ewi.
    - destruct (data p) as [d|] eqn:Ed; [|done]. cbn [mbind option_bind] in Ewi, Hnone.
      rewrite (getCurrentWeather_present p d wi Ed Ewi). cbn [weather]. by rewrite Hnone.
    - by rewrite (getCurrentWeather_missing p Ewi). }
  rewrite icon_child, description_child, Hs, Hw. split; [|done].
  unfold getWeatherIcon. rewrite Hlow. reflexivity.
Qed.

End Refresh.

(** * Worked examples

    The statements above at concrete payloads, on the host with whole
    numbers and ASCII lower-casing. *)

Example region_precedence :
  getCityInfo (Some (sample_payload rainy_data)) = utf16 "A".
Proof. reflexivity. Qed.

Example province_then_city :
  getCityInfo (Some (sample_payload
     (sample_data None None None (Some (utf16 "X")) (Some (utf16 "Y"))))) = utf16 "Y·X".
Proof. reflexivity. Qed.

Example bars_normalised :
  getCityInfo (Some (sample_payload freezing_data)) = utf16 "北京·朝阳".
Proof. reflexivity. Qed.

Example fullwidth_bar_normalised :
  getCityInfo (Some (sample_payload
     (sample_data None None (Some (utf16 "北京｜朝阳")) None None))) = utf16 "北京·朝阳".
Proof. reflexivity. Qed.

Example nothing_resolves :
  getCityInfo (Some (sample_payload bare_data)) = utf16 "未知位置".
Proof. reflexivity. Qed.

Example first_keyword_wins :
  getWeatherIcon (utf16 "晴转多云") = iconOf Clear /\
  getWeatherIcon (utf16 "Cloudy with rain") = iconOf Cloudy /\
  getWeatherIcon (utf16 "雨夹雪") = iconOf Rain /\
  getWeatherIcon (utf16 "SNOW and wind") = iconOf Snow /\
  getWeatherIcon (utf16 "大风") = iconOf Windy /\
  getWeatherIcon (utf16 "雾") = iconOf Clear.
Proof. repeat split; reflexivity. Qed.

Example or_else_cases :
  or_else [] (utf16 "获取天气数据失败") = utf16 "获取天气数据失败" /\
  or_else (utf16 "busy") (utf16 "获取天气数据失败") = utf16 "busy".
Proof. split; reflexivity. Qed.

Example ok_range :
  ok {| http_status := 199; body := None |} = false /\
  ok {| http_status := 200; body := None |} = true /\
  ok {| http_status := 299; body := None |} = true /\
  ok {| http_status := 300; body := None |} = false /\
  ok {| http_status := 500; body := None |} = false.
Proof. repeat split; reflexivity. Qed.

Example server_message_shown :
  error (ui (fetchWeather
               (Fulfilled {| http_status := 200;
                             body := Some {| status := utf16 "error";
                                             message := utf16 "busy"; data := None |} |})
               freshCell).1) = Some (utf16 "busy") /\
  error (ui (fetchWeather refused freshCell).1) = Some (utf16 "获取天气数据失败").
Proof. split; reflexivity. Qed.

Example zero_degrees :
  textContent <$> nth_child 1 (successPill (showing (sample_payload freezing_data)))
    = Some (utf16 "0°C").
Proof. reflexivity. Qed.

(** C1 does not extend to a body without [data]: no candidate of the chain
    resolves there, yet the result is the unknown-city placeholder and not
    the unknown-location one. *)
Lemma getCityInfo_without_data :
  getCityInfo (Some payload_without_data) = utf16 "未知城市" /\
  resolveLocation payload_without_data = utf16 "未知位置" /\
  getCityInfo (Some payload_without_data) <> resolveLocation payload_without_data.
Proof.
  split; [reflexivity|]. split; [reflexivity|].
  intros H. vm_compute in H. discriminate H.
Qed.

(** Upper-case letters do not change the icon: heavy rain, in any case, is rain. *)
Lemma getWeatherIcon_priority_witness :
  toLowerCase (utf16 "Heavy RAIN") = toLowerCase (utf16 "heavy rain") /\
  getWeatherIcon (utf16 "Heavy RAIN") = getWeatherIcon (utf16 "heavy rain") /\
  getWeatherIcon (utf16 "heavy rain") = iconOf Rain.
Proof.
  destruct (getWeatherIcon_priority (utf16 "heavy rain")) as (H1 & _ & _ & H4).
  split; [reflexivity|]. split; [apply H4; reflexivity | exact H1].
Defined.

(** A response with status 500 on a fresh component. *)
Lemma fetch_failure_caught_witness :
  FetchFailure server_error (utf16 "天气数据获取失败") /\
  enabled enabledConfig = true /\
  loading (ui (fetchWeather server_error freshCell).1) = false /\
  error (ui (fetchWeather server_error freshCell).1) = Some (utf16 "天气数据获取失败") /\
  render (Some enabledConfig) (ui (fetchWeather server_error freshCell).1) = Some errorPill.
Proof.
  assert (FetchFailure server_error (utf16 "天气数据获取失败")) as Hf.
  { apply http_failure. reflexivity. }
  destruct (fetch_failure_caught server_error _ freshCell enabledConfig Hf eq_refl)
    as (_ & Hl & He & _ & Hr & _).
  split; [exact Hf|]. split; [reflexivity|]. split; [exact Hl|]. split; [exact He | exact Hr].
Defined.

(** After the first fetch failed, the mounted widget shows the unavailable pill. *)
Lemma render_precedence_witness :
  reachable failed_world /\
  enabled enabledConfig = true /\
  render (Some enabledConfig) (ui (cell failed_world)) = Some errorPill.
Proof.
  assert (reachable failed_world) as Hr.
  { exists [Mount (Some enabledConfig); Settle server_error]. reflexivity. }
  split; [exact Hr|]. split; [reflexivity|].
  exact (proj1 (render_precedence failed_world enabledConfig Hr eq_refl)).
Defined.

(** Heavy rain at 23 degrees. *)
Lemma success_pill_contents_witness :
  FetchSuccess (answer (sample_payload rainy_data)) (sample_payload rainy_data) /\
  enabled enabledConfig = true /\
  nth_child 0 (successPill (ui (fetchWeather (answer (sample_payload rainy_data)) freshCell).1))
    = Some (iconOf Rain) /\
  textContent <$>
    nth_child 1 (successPill (ui (fetchWeather (answer (sample_payload rainy_data)) freshCell).1))
    = Some (utf16 "23°C").
Proof.
  assert (FetchSuccess (answer (sample_payload rainy_data)) (sample_payload rainy_data)) as Hs.
  { constructor; reflexivity. }
  destruct (success_pill_contents _ _ freshCell enabledConfig Hs eq_refl) as (_ & Hfull & _).
  destruct (Hfull rainy_data rainy 23%Z (utf16 "Heavy RAIN") eq_refl eq_refl eq_refl eq_refl)
    as (Hi & Ht & _).
  split; [exact Hs|]. split; [reflexivity|]. split; [exact Hi | exact Ht].
Defined.

(** A disabled configuration, then a stray tick, then no configuration at all. *)
Lemma disabled_is_silent_witness :
  disabled (Some disabledConfig) = true /\
  render (Some disabledConfig) (showing (sample_payload rainy_data)) = None /\
  requests (run initialWorld [Mount (Some disabledConfig); Tick 0%nat; SetConfig None]) = 0%nat.
Proof.
  destruct (disabled_is_silent (Some disabledConfig) eq_refl) as (Hr & _ & Hrun).
  split; [reflexivity|]. split; [apply Hr|].
  apply (Hrun [Mount (Some disabledConfig); Tick 0%nat; SetConfig None]). reflexivity.
Defined.

(** A component that already holds a snapshot: a new payload replaces it, a
    server error keeps it. *)
Lemma fetch_snapshot_witness :
  FetchSuccess (answer (sample_payload rainy_data)) (sample_payload rainy_data) /\
  FetchFailure server_error (utf16 "天气数据获取失败") /\
  weatherData (ui (fetchWeather (answer (sample_payload rainy_data)) stale).1)
    = Some (sample_payload rainy_data) /\
  weatherData (ui (fetchWeather server_error stale).1) = Some (sample_payload freezing_data).
Proof.
  assert (FetchSuccess (answer (sample_payload rainy_data)) (sample_payload rainy_data)) as Hs.
  { constructor; reflexivity. }
  assert (FetchFailure server_error (utf16 "天气数据获取失败")) as Hf.
  { apply http_failure. reflexivity. }
  split; [exact Hs|]. split; [exact Hf|]. split.
  - exact (proj1 (fetch_snapshot _ stale) _ Hs).
  - exact (proj2 (fetch_snapshot _ stale) _ Hf).
Defined.

(** Mount, unmount, then ticks and a late settlement: one request in all. *)
Lemma teardown_cancels_interval_witness :
  reachable mounted_world /\
  cleanup mounted_world = Some 0%nat /\
  timers mounted_world = {[ 0%nat := 600000 ]} /\
  requests (run (step mounted_world Unmount) [Tick 0%nat; Tick 1%nat; Settle server_error])
    = requests mounted_world.
Proof.
  assert (reachable mounted_world) as Hr.
  { exists [Mount (Some enabledConfig)]. reflexivity. }
  destruct (teardown_cancels_interval mounted_world Hr) as (_ & Hh & Hun).
  destruct (Hh 0%nat eq_refl) as (_ & Ht & _).
  split; [exact Hr|]. split; [reflexivity|]. split; [exact Ht|].
  apply (Hun [Tick 0%nat; Tick 1%nat; Settle server_error]). reflexivity.
Defined.

(** Zero degrees and a blank description are shown as they are. *)
Lemma getCurrentWeather_keeps_falsy_witness :
  data (sample_payload freezing_data) = Some freezing_data /\
  d_weatherData freezing_data = Some freezing /\
  temperature (getCurrentWeather (Some (sample_payload freezing_data))) = Num 0%Z /\
  weather (getCurrentWeather (Some (sample_payload freezing_data))) = [] /\
  textContent <$> nth_child 1 (successPill (showing (sample_payload freezing_data)))
    = Some (utf16 "0°C").
Proof.
  destruct (getCurrentWeather_keeps_falsy (sample_payload freezing_data) freezing_data
              freezing eq_refl eq_refl) as (Ht & Hw & _ & _ & Hr & _).
  split; [reflexivity|]. split; [reflexivity|]. split; [exact Ht|]. split; [exact Hw|].
  exact (Hr 0%Z (showing (sample_payload freezing_data)) eq_refl eq_refl).
Defined.

(** A rainy widget under the pointer: the tooltip reads the region of the
    weather block.  While the loading pill is shown the pointer does
    nothing. *)
Lemma hover_shows_location_witness :
  shows_success rainy_world = true /\
  textContent <$> nth_child 3 (successPill (ui (cell (step rainy_world MouseEnter))))
    = Some (utf16 "A") /\
  nth_child 3 (successPill (ui (cell (step rainy_world MouseLeave)))) = None /\
  shows_success mounted_world = false /\
  step mounted_world MouseEnter = mounted_world.
Proof.
  destruct (hover_shows_location rainy_world) as (_ & Hon & _).
  destruct (Hon eq_refl) as (_ & _ & _ & Hin & Hout & _).
  destruct (hover_shows_location mounted_world) as (_ & _ & Hoff).
  destruct (Hoff eq_refl) as [Henter _].
  split; [reflexivity|]. split; [exact Hin|]. split; [exact Hout|].
  split; [reflexivity | exact Henter].
Defined.

(** After a failed first fetch, a refresh that succeeds clears the error. *)
Lemma refresh_result_is_fresh_witness :
  reachable failed_world /\ cleanup failed_world = Some 0%nat /\
  in_flight failed_world = 0%nat /\
  error (ui (cell failed_world)) = Some (utf16 "天气数据获取失败") /\
  error (ui (cell (run failed_world
                     [Tick 0%nat; Settle (answer (sample_payload rainy_data))]))) = None.
Proof.
  assert (reachable failed_world) as Hr.
  { exists [Mount (Some enabledConfig); Settle server_error]. reflexivity. }
  destruct (refresh_result_is_fresh failed_world 0
              (answer (sample_payload rainy_data)) Hr eq_refl eq_refl) as (_ & _ & He & _).
  split; [exact Hr|]. split; [reflexivity|]. split; [reflexivity|]. split; [reflexivity|].
  apply He. exists (sample_payload rainy_data). constructor; reflexivity.
Defined.

(** A blank region in the weather block lets the top-level region through. *)
Lemma getCityInfo_blank_is_absent_witness :
  data (sample_payload freezing_data) = Some freezing_data /\
  blank (d_weatherData freezing_data ≫= wi_region) /\
  d_region freezing_data = Some (utf16 "北京|朝阳") /\
  getCityInfo (Some (sample_payload freezing_data)) = utf16 "北京·朝阳".
Proof.
  destruct (getCityInfo_blank_is_absent (sample_payload freezing_data)) as (_ & _ & H).
  destruct (H freezing_data eq_refl) as (_ & Hnext & _).
  split; [reflexivity|]. split; [left; reflexivity|]. split; [reflexivity|].
  exact (Hnext (or_introl eq_refl) 0x5317 [0x4EAC; 0x7C; 0x671D; 0x9633] eq_refl).
Defined.

(** The first mount of the page. *)
Lemma mount_fetches_at_once_witness :
  reachable initialWorld /\ mounted initialWorld = false /\
  enabled enabledConfig = true /\
  requests mounted_world = 1%nat /\ view mounted_world = Some loadingPill.
Proof.
  assert (reachable initialWorld) as Hr by (exists []; reflexivity).
  destruct (mount_fetches_at_once initialWorld enabledConfig Hr eq_refl eq_refl)
    as (Hreq & _ & Hv & _).
  split; [exact Hr|]. split; [reflexivity|]. split; [reflexivity|].
  split; [exact Hreq | exact Hv].
Defined.

(** Three ticks after mounting: four requests in all. *)
Lemma interval_refetches_witness :
  reachable mounted_world /\ cleanup mounted_world = Some 0%nat /\
  requests (run mounted_world [Tick 0%nat; Tick 0%nat; Tick 0%nat]) = 4%nat /\
  view (run mounted_world [Tick 0%nat; Tick 0%nat; Tick 0%nat]) = Some loadingPill.
Proof.
  assert (reachable mounted_world) as Hr.
  { exists [Mount (Some enabledConfig)]. reflexivity. }
  destruct (interval_refetches mounted_world 0 3 Hr eq_refl) as (Hreq & _ & _ & Hv).
  split; [exact Hr|]. split; [reflexivity|]. split; [exact Hreq|].
  apply Hv. lia.
Defined.

(** The fetch of the effect fails and the fetch of the first tick succeeds. *)
Lemma settlements_commute_witness :
  props racing_world = Some (Some enabledConfig) /\
  in_flight racing_world = 2%nat /\
  FetchFailure server_error (utf16 "天气数据获取失败") /\
  FetchSuccess (answer (sample_payload rainy_data)) (sample_payload rainy_data) /\
  view (run racing_world [Settle server_error; Settle (answer (sample_payload rainy_data))])
    = Some errorPill /\
  ui (cell (run racing_world [Settle (answer (sample_payload rainy_data)); Settle server_error]))
    = ui (cell (run racing_world [Settle server_error; Settle (answer (sample_payload rainy_data))])).
Proof.
  assert (FetchSuccess (answer (sample_payload rainy_data)) (sample_payload rainy_data)) as Hs.
  { constructor; reflexivity. }
  assert (FetchFailure server_error (utf16 "天气数据获取失败")) as Hf.
  { apply http_failure. reflexivity. }
  destruct (settlements_commute racing_world enabledConfig 0 server_error _ _ _
              eq_refl eq_refl eq_refl Hf Hs) as (_ & Hc & Hv & _).
  split; [reflexivity|]. split; [reflexivity|]. split; [exact Hf|]. split; [exact Hs|].
  split; [exact Hv | exact Hc].
Defined.

(** Mounted and enabled: the timer with handle 0. *)
Lemma interval_while_enabled_witness :
  reachable mounted_world /\ props mounted_world = Some (Some enabledConfig) /\
  exists h, cleanup mounted_world = Some h /\ timers mounted_world = {[ h := 600000 ]}.
Proof.
  assert (reachable mounted_world) as Hr.
  { exists [Mount (Some enabledConfig)]. reflexivity. }
  split; [exact Hr|]. split; [reflexivity|].
  exact (proj1 (interval_while_enabled mounted_world Hr) enabledConfig eq_refl eq_refl).
Defined.

(** A payload without a weather block, on the host of the examples. *)
Lemma unknown_weather_is_sunny_witness :
  toLowerCase (utf16 "未知") = utf16 "未知" /\
  nth_child 0 (successPill (showing (sample_payload bare_data)))
    = Some (Icon Sun "w-4 h-4 text-yellow-500").
Proof.
  split; [reflexivity|].
  exact (proj1 (unknown_weather_is_sunny (showing (sample_payload bare_data))
                  (sample_payload bare_data) eq_refl eq_refl eq_refl)).
Defined.

(** The rainy widget is given a new configuration object. *)
Lemma reconfigure_restarts_witness :
  reachable rainy_world /\ mounted rainy_world = true /\ enabled enabledConfig = true /\
  requests (step rainy_world (SetConfig (Some enabledConfig))) = 2%nat /\
  timers (step rainy_world (SetConfig (Some enabledConfig))) = {[ 1%nat := 600000 ]} /\
  weatherData (ui (cell (step rainy_world (SetConfig (Some enabledConfig)))))
    = Some (sample_payload rainy_data).
Proof.
  assert (reachable rainy_world) as Hr.
  { exists [Mount (Some enabledConfig); Settle (answer (sample_payload rainy_data))].
    reflexivity. }
  destruct (reconfigure_restarts rainy_world enabledConfig Hr eq_refl eq_refl)
    as (Hreq & _ & _ & Hw & _ & Ht).
  split; [exact Hr|]. split; [reflexivity|]. split; [reflexivity|].
  split; [exact Hreq|]. split; [exact Ht | exact Hw].
Defined.
